(** * Knowledge store of the interactive DeepSeek CLI

    A shallow embedding of [src/deepseek_cli/knowledge_cli.py]: the class
    [InteractiveKnowledgeCLI] (storage gateway, search, extraction, rolling
    context, prompt assembly) and the completion client [DeepSeekAPI].

    Conventions of the embedding.
    - A Python [str] is the list of its code points ([N]); slices and [len]
      count code points, as in Python.
    - Values that travel through [json.load]/[json.dump] are dynamically
      typed in the source; they are the type [pyval] here, and every
      operation that Python can refuse lives in the error monad [outcome].
    - A Python [dict] keeps its keys in insertion order (the project asks for
      Python 3.7+), so it is an association list; [dict_set] overwrites in
      place and appends new keys.
    - The store file is seen through [json.load]: it is absent, unparseable,
      or holds a JSON value; [save_knowledge] leaves the file holding the
      value it was given.
    - [str.lower()] is Python's and is a parameter (the class [Lowering]).
    - [datetime.now().isoformat()] and the HTTP exchange are inputs of the
      operations that use them. *)

From Stdlib Require Import String Ascii NArith ZArith Bool Arith Lia List.
Import ListNotations.
Local Open Scope nat_scope.

(* ================================================================== *)
(** ** Python strings *)
(* ================================================================== *)

Module PyStr.

Definition str := list N.

(** An ASCII literal of the source as a [str]. *)
Definition lit (s : string) : str :=
  map N_of_ascii (list_ascii_of_string s).

Definition nl : str := [10%N].

Definition str_eqb (a b : str) : bool :=
  if list_eq_dec N.eq_dec a b then true else false.

(** The case mapping of the ASCII letters.  [str.lower()] is this map on a
    string of ASCII code points; on other strings it follows the Unicode
    tables (see [Lowering] below). *)
Definition ascii_lower_char (c : N) : N :=
  if ((65 <=? c) && (c <=? 90))%N then (c + 32)%N else c.

Definition ascii_lower (s : str) : str := map ascii_lower_char s.

Definition is_ascii (s : str) : bool := forallb (fun c => (c <? 128)%N) s.

(** The code points [str.strip()] removes (Py_UNICODE_ISSPACE). *)
Definition is_space (c : N) : bool :=
  (((9 <=? c) && (c <=? 13)) || ((28 <=? c) && (c <=? 32))
   || (c =? 133) || (c =? 160) || (c =? 5760)
   || ((8192 <=? c) && (c <=? 8202))
   || (c =? 8232) || (c =? 8233) || (c =? 8239) || (c =? 8287)
   || (c =? 12288))%N.

Fixpoint lstrip (s : str) : str :=
  match s with
  | [] => []
  | c :: s' => if is_space c then lstrip s' else s
  end.

Definition rstrip (s : str) : str := rev (lstrip (rev s)).

Definition strip (s : str) : str := rstrip (lstrip s).

(** [s.startswith(p)] *)
Fixpoint startswith (p s : str) : bool :=
  match p, s with
  | [], _ => true
  | _ :: _, [] => false
  | a :: p', b :: s' => (a =? b)%N && startswith p' s'
  end.

(** [s.startswith((p1, ..., pn))] *)
Definition startswith_any (ps : list str) (s : str) : bool :=
  existsb (fun p => startswith p s) ps.

(** [needle in hay] *)
Fixpoint contains (needle hay : str) : bool :=
  startswith needle hay ||
  match hay with
  | [] => false
  | _ :: hay' => contains needle hay'
  end.

(** [s.split('\n')] *)
Fixpoint split_lines (s : str) : list str :=
  match s with
  | [] => [[]]
  | c :: s' =>
      if (c =? 10)%N then [] :: split_lines s'
      else match split_lines s' with
           | l :: ls => (c :: l) :: ls
           | [] => [[c]]
           end
  end.

(** [sep.join(l)] *)
Fixpoint join (sep : str) (l : list str) : str :=
  match l with
  | [] => []
  | x :: l' =>
      match l' with
      | [] => x
      | _ :: _ => x ++ sep ++ join sep l'
      end
  end.

(** [l[-n:]] for [n > 0] *)
Definition lastn {A} (n : nat) (l : list A) : list A :=
  skipn (length l - n) l.

End PyStr.
Import PyStr.

(* ================================================================== *)
(** ** Python values and exceptions *)
(* ================================================================== *)

(** The values [json.load] produces and [json.dump] accepts; the numbers
    are the integers, the only ones the program writes. *)
#[local] Set Warnings "-register-all".
Inductive pyval : Type :=
| PNone
| PBool (b : bool)
| PInt (z : Z)
| PStr (s : str)
| PList (l : list pyval)
| PDict (d : list (str * pyval)).

Definition dict := list (str * pyval).

(** The exception classes the source names or lets through.  Only a
    [RequestException] carries its text: [DeepSeekAPI.query] puts [str(e)]
    into the string it returns. *)
Inductive exn : Type :=
| RequestException (msg : str)
| JSONDecodeError
| KeyError
| IndexError
| TypeError
| AttributeError.

Inductive outcome (A : Type) : Type :=
| Return (a : A)
| Raise (e : exn).
Arguments Return {A} a.
Arguments Raise {A} e.

Definition bind {A B} (m : outcome A) (k : A -> outcome B) : outcome B :=
  match m with
  | Return a => k a
  | Raise e => Raise e
  end.

Declare Scope py_scope.
Notation "x <- m ;; k" := (bind m (fun x => k))
  (at level 61, m at next level, right associativity) : py_scope.
Local Open Scope py_scope.

Module Dict.

Fixpoint dict_get (k : str) (d : dict) : option pyval :=
  match d with
  | [] => None
  | (k', v) :: d' => if str_eqb k' k then Some v else dict_get k d'
  end.

Definition dict_mem (k : str) (d : dict) : bool :=
  match dict_get k d with Some _ => true | None => false end.

(** [d[k] = v]: an existing key keeps its place, a new key goes last. *)
Fixpoint dict_set (k : str) (v : pyval) (d : dict) : dict :=
  match d with
  | [] => [(k, v)]
  | (k', v') :: d' =>
      if str_eqb k' k then (k, v) :: d' else (k', v') :: dict_set k v d'
  end.

Definition keys (d : dict) : list str := map fst d.

End Dict.
Import Dict.

(** [str.lower()] is the interpreter's: a case mapping over all of Unicode
    that also looks at the neighbours of a letter (a capital sigma at the
    end of a word).  The source only calls it, so it is a parameter of the
    development, known by what it does on ASCII text: every definition and
    theorem below is stated for an arbitrary [lower] of that kind. *)
Class Lowering : Type := {
  lower : str -> str;
  lower_ascii : forall s, is_ascii s = true -> lower s = ascii_lower s
}.

(** The instance that lowers the ASCII letters and nothing else. *)
Definition ascii_lowering : Lowering :=
  {| lower := ascii_lower; lower_ascii := fun s _ => eq_refl |}.

Section Python.

Context {lowering : Lowering}.

(** *** Dynamically typed operations *)

(** [v[k]] for a string [k] *)
Definition py_getitem (v : pyval) (k : str) : outcome pyval :=
  match v with
  | PDict d => match dict_get k d with
               | Some x => Return x
               | None => Raise KeyError
               end
  | _ => Raise TypeError
  end.

(** [v[0]] *)
Definition py_getitem0 (v : pyval) : outcome pyval :=
  match v with
  | PList (x :: _) => Return x
  | PList [] => Raise IndexError
  | PStr (c :: _) => Return (PStr [c])
  | PStr [] => Raise IndexError
  | PDict _ => Raise KeyError
  | _ => Raise TypeError
  end.

(** [v[k] = x] *)
Definition py_setitem (v : pyval) (k : str) (x : pyval) : outcome pyval :=
  match v with
  | PDict d => Return (PDict (dict_set k x d))
  | _ => Raise TypeError
  end.

(** [k in v] for a string [k] *)
Definition py_in (k : str) (v : pyval) : outcome bool :=
  match v with
  | PDict d => Return (dict_mem k d)
  | PList l =>
      Return (existsb (fun x => match x with
                                | PStr s => str_eqb s k
                                | _ => false
                                end) l)
  | PStr s => Return (contains k s)
  | _ => Raise TypeError
  end.

(** [v.append(x)] *)
Definition py_append (v x : pyval) : outcome pyval :=
  match v with
  | PList l => Return (PList (l ++ [x]))
  | _ => Raise AttributeError
  end.

(** [v[:n]].  A dict refuses a slice (TypeError up to CPython 3.11, KeyError
    from 3.12; no caller tells the two apart). *)
Definition py_slice (v : pyval) (n : nat) : outcome pyval :=
  match v with
  | PStr s => Return (PStr (firstn n s))
  | PList l => Return (PList (firstn n l))
  | _ => Raise TypeError
  end.

(** [v.split('\n')] *)
Definition py_split (v : pyval) : outcome (list str) :=
  match v with
  | PStr s => Return (split_lines s)
  | _ => Raise AttributeError
  end.

(** [v.lower()] *)
Definition py_lower (v : pyval) : outcome str :=
  match v with
  | PStr s => Return (lower s)
  | _ => Raise AttributeError
  end.

(** [len(v)] *)
Definition py_len (v : pyval) : outcome Z :=
  match v with
  | PStr s => Return (Z.of_nat (length s))
  | PList l => Return (Z.of_nat (length l))
  | PDict d => Return (Z.of_nat (length d))
  | _ => Raise TypeError
  end.

(** [v.get(k, default)] *)
Definition py_get (v : pyval) (k : str) (default : pyval) : outcome pyval :=
  match v with
  | PDict d => match dict_get k d with
               | Some x => Return x
               | None => Return default
               end
  | _ => Raise AttributeError
  end.

(** [v.items()], [v.keys()] *)
Definition py_items (v : pyval) : outcome dict :=
  match v with
  | PDict d => Return d
  | _ => Raise AttributeError
  end.

(** Truth value of [v] in an [if]. *)
Definition py_truthy (v : pyval) : bool :=
  match v with
  | PNone => false
  | PBool b => b
  | PInt z => negb (z =? 0)%Z
  | PStr s => match s with [] => false | _ :: _ => true end
  | PList l => match l with [] => false | _ :: _ => true end
  | PDict d => match d with [] => false | _ :: _ => true end
  end.

Fixpoint map_outcome {A B} (f : A -> outcome B) (l : list A)
  : outcome (list B) :=
  match l with
  | [] => Return []
  | a :: l' => b <- f a ;; bs <- map_outcome f l' ;; Return (b :: bs)
  end.

(* ================================================================== *)
(** ** The store file and the session object *)
(* ================================================================== *)

(** A file as [open] and [json.load] see it. *)
Inductive file : Type :=
| Absent
| Unparseable
| Json (v : pyval).

Definition file_exists (f : file) : bool :=
  match f with Absent => false | _ => true end.

(** The fields of [InteractiveKnowledgeCLI] together with the two files
    under [.knowledge/].  [deepseek] is the client object, known by the key
    it was built with. *)
Record cli : Type := mkCli {
  knowledge_file : file;
  config_file : file;
  deepseek : option pyval;
  conversation_history : list pyval;
  current_context : list str
}.

Definition set_knowledge_file (f : file) (w : cli) : cli :=
  mkCli f (config_file w) (deepseek w) (conversation_history w)
        (current_context w).

Definition set_config_file (f : file) (w : cli) : cli :=
  mkCli (knowledge_file w) f (deepseek w) (conversation_history w)
        (current_context w).

Definition set_deepseek (k : option pyval) (w : cli) : cli :=
  mkCli (knowledge_file w) (config_file w) k (conversation_history w)
        (current_context w).

Definition set_history (h : list pyval) (w : cli) : cli :=
  mkCli (knowledge_file w) (config_file w) (deepseek w) h
        (current_context w).

Definition set_context (c : list str) (w : cli) : cli :=
  mkCli (knowledge_file w) (config_file w) (deepseek w)
        (conversation_history w) c.

(* ================================================================== *)
(** ** Storage gateway (lines 37-47, 68-79) *)
(* ================================================================== *)

Definition k_summary : str := lit "summary".
Definition k_core_instructions : str := lit "core_instructions".
Definition k_api_interactions : str := lit "api_interactions".
Definition k_conversations : str := lit "conversations".
Definition k_instructions : str := lit "instructions".
Definition k_timestamp : str := lit "timestamp".
Definition k_usage_count : str := lit "usage_count".
Definition k_source_conversation : str := lit "source_conversation".
Definition k_query : str := lit "query".
Definition k_response : str := lit "response".
Definition k_context : str := lit "context".
Definition k_history : str := lit "history".
Definition k_type : str := lit "type".
Definition k_topic : str := lit "topic".
Definition k_content : str := lit "content".
Definition k_role : str := lit "role".
Definition k_api_key : str := lit "api_key".

(** The literal of lines 42-47 and 79. *)
Definition empty_knowledge : pyval :=
  PDict [ (k_summary, PList []);
          (k_core_instructions, PDict []);
          (k_api_interactions, PList []);
          (k_conversations, PList []) ].

Definition save_knowledge (data : pyval) (w : cli) : cli :=
  set_knowledge_file (Json data) w.

Definition load_knowledge (w : cli) : pyval :=
  match knowledge_file w with
  | Json v => v
  | Absent | Unparseable => empty_knowledge
  end.

Definition setup_directories (w : cli) : cli :=
  if file_exists (knowledge_file w) then w
  else save_knowledge empty_knowledge w.

(* ================================================================== *)
(** ** Search (lines 81-96) *)
(* ================================================================== *)

Definition search_result (topic : str) (instructions : pyval) : pyval :=
  PDict [ (k_type, PStr (lit "core_instructions"));
          (k_topic, PStr topic);
          (k_content, instructions) ].

(** The condition of lines 88-89; [or] does not look at the instructions
    when the topic already matches. *)
Definition entry_matches (query_lower topic : str) (instructions : pyval)
  : outcome bool :=
  if contains query_lower (lower topic) then Return true
  else
    text <- py_getitem instructions k_instructions ;;
    low <- py_lower text ;;
    Return (contains query_lower low).

Fixpoint search_loop (query_lower : str) (items : dict)
    (results : list pyval) : outcome (list pyval) :=
  match items with
  | [] => Return results
  | (topic, instructions) :: rest =>
      hit <- entry_matches query_lower topic instructions ;;
      search_loop query_lower rest
        (if hit then results ++ [search_result topic instructions]
         else results)
  end.

Definition search_knowledge (query : str) (w : cli)
  : outcome (list pyval) :=
  let knowledge := load_knowledge w in
  let query_lower := lower query in
  ci <- py_getitem knowledge k_core_instructions ;;
  items <- py_items ci ;;
  search_loop query_lower items [].

(* ================================================================== *)
(** ** Extraction (lines 98-135) *)
(* ================================================================== *)

Definition markers : list str :=
  [ lit "1."; lit "2."; lit "3."; lit "4."; lit "5.";
    lit "- "; lit "* "; [8226%N; 32%N] ].

(** The test of lines 120-121. *)
Definition is_core_point (line : str) : bool :=
  startswith_any markers (strip line)
  || contains (lit "key point") (lower line)
  || contains (lit "important:") (lower line).

(** The loop of lines 119-124, [core_points] being the list built so far. *)
Fixpoint collect_core_points (lines : list str) (core_points : list str)
  : list str :=
  match lines with
  | [] => core_points
  | line :: rest =>
      if is_core_point line then
        let core_points := core_points ++ [strip line] in
        if 3 <=? length core_points then core_points
        else collect_core_points rest core_points
      else collect_core_points rest core_points
  end.

(** Line 127. *)
Definition topic_of (query : str) : str :=
  firstn 50 query ++ (if 50 <? length query then lit "..." else []).

Definition conversation_record (now : str) (query : str) (response : pyval)
    (context : list str) : pyval :=
  PDict [ (k_timestamp, PStr now);
          (k_query, PStr (firstn 500 query));
          (k_response, response);
          (k_context, PList (map PStr context)) ].

Definition instruction_entry (now : str) (core_points : list str)
    (source : Z) : pyval :=
  PDict [ (k_timestamp, PStr now);
          (k_instructions, PStr (join nl core_points));
          (k_usage_count, PInt 1);
          (k_source_conversation, PInt source) ].

(** Lines 110-112 and 231-233: append [record] to
    [knowledge["conversations"]], creating the list when the key is
    missing. *)
Definition append_conversation (knowledge record : pyval)
  : outcome pyval :=
  has <- py_in k_conversations knowledge ;;
  knowledge <- (if has then Return knowledge
                else py_setitem knowledge k_conversations (PList [])) ;;
  convs <- py_getitem knowledge k_conversations ;;
  convs <- py_append convs record ;;
  py_setitem knowledge k_conversations convs.

(** [now1] and [now2] are the two readings of the clock (lines 104, 129).
    A raised exception leaves the store as it was: the only write is the
    last statement. *)
Definition add_to_knowledge (now1 now2 : str) (query : str)
    (response : pyval) (w : cli) : outcome cli :=
  let knowledge := load_knowledge w in
  answer <- py_slice response 1000 ;;
  let conversation :=
    conversation_record now1 query answer (current_context w) in
  knowledge <- append_conversation knowledge conversation ;;
  lines <- py_split response ;;
  let core_points := collect_core_points lines [] in
  knowledge <-
    match core_points with
    | [] => Return knowledge
    | _ :: _ =>
        let topic := topic_of query in
        convs <- py_getitem knowledge k_conversations ;;
        n <- py_len convs ;;
        let entry := instruction_entry now2 core_points (n - 1)%Z in
        ci <- py_getitem knowledge k_core_instructions ;;
        ci <- py_setitem ci topic entry ;;
        py_setitem knowledge k_core_instructions ci
    end ;;
  Return (save_knowledge knowledge w).

(** Lines 220-234. *)
Definition save_conversation (now : str) (w : cli) : outcome cli :=
  let knowledge := load_knowledge w in
  match conversation_history w with
  | [] => Return w
  | _ :: _ =>
      let conversation_record :=
        PDict [ (k_timestamp, PStr now);
                (k_history, PList (conversation_history w));
                (k_context, PList (map PStr (current_context w))) ] in
      knowledge <- append_conversation knowledge conversation_record ;;
      Return (save_knowledge knowledge w)
  end.

(* ================================================================== *)
(** ** Completion client (lines 346-383) *)
(* ================================================================== *)

(** What [requests.post], [raise_for_status] and [response.json()] do for a
    prompt: they raise, or hand over the decoded body.  An exception that
    is a [RequestException] (also the JSONDecodeError of requests, which
    inherits from it) is reported as [RequestException]: the first
    [except] clause takes it. *)
Inductive http_result : Type :=
| HttpRaises (e : exn)
| HttpJson (result : pyval).

(** Lines 369-378, the body of the [try]. *)
Definition query_body (http : http_result) : outcome pyval :=
  match http with
  | HttpRaises e => Raise e
  | HttpJson result =>
      choices <- py_getitem result (lit "choices") ;;
      first <- py_getitem0 choices ;;
      message <- py_getitem first (lit "message") ;;
      py_getitem message (lit "content")
  end.

Definition invalid_format : str := lit "Error: Invalid API response format".

(** [DeepSeekAPI.query]: the two [except] clauses of lines 380-383 turn
    their exceptions into text; every other exception leaves the method. *)
Definition DeepSeekAPI_query (http : http_result) : outcome pyval :=
  match query_body http with
  | Return content => Return content
  | Raise (RequestException msg) => Return (PStr (lit "API Error: " ++ msg))
  | Raise KeyError | Raise JSONDecodeError => Return (PStr invalid_format)
  | Raise e => Raise e
  end.

(* ================================================================== *)
(** ** Query pipeline and command loop (lines 160-343) *)
(* ================================================================== *)

(** What [handle_user_query] returns: the response, the text
    [f"API Error: {str(e)}"] of line 302 for the exception [e] it caught,
    or the text of line 306. *)
Inductive answer : Type :=
| Response (r : pyval)
| ApiError (e : exn)
| NoApiKey.

Definition role_message (role : string) (content : pyval) : pyval :=
  PDict [ (k_role, PStr (lit role)); (k_content, content) ].

Definition please : str :=
  lit "Please provide a comprehensive response as a senior developer.".

(** Lines 269-279. *)
Definition build_prompt (context query : str) : str :=
  match context with
  | _ :: _ =>
      lit "Context from previous knowledge:" ++ nl ++ context ++ nl ++ nl
      ++ lit "Current query: " ++ query ++ nl ++ nl ++ please
  | [] => lit "Query: " ++ query ++ nl ++ nl ++ please
  end.

(** [str.split()] without argument: the maximal runs of non-space code
    points. [cur] is the run being read, reversed. *)
Fixpoint split_ws (s : str) (cur : str) : list str :=
  match s with
  | [] => match cur with [] => [] | _ :: _ => [rev cur] end
  | c :: s' =>
      if is_space c then
        match cur with
        | [] => split_ws s' []
        | _ :: _ => rev cur :: split_ws s' []
        end
      else split_ws s' (c :: cur)
  end.

(** One turn of the loop of [run]: the line [input()] returns, what the
    network answers to a prompt, and the readings of the clock. *)
Record event : Type := mkEvent {
  input : str;
  api : str -> http_result;
  now1 : str;
  now2 : str
}.

Inductive control : Type := Continue | Exit.

Section Pipeline.

(** [repr] of a list, which an f-string uses for a value that is not a
    string.  It is Python's, and stays a parameter. *)
Variable py_repr : pyval -> str.

Definition py_format (v : pyval) : str :=
  match v with
  | PStr s => s
  | _ => py_repr v
  end.

(** The comprehension element of line 260. *)
Definition format_result (r : pyval) : outcome str :=
  topic <- py_getitem r k_topic ;;
  content <- py_getitem r k_content ;;
  text <- py_getitem content k_instructions ;;
  cut <- py_slice text 200 ;;
  Return (py_format topic ++ lit ": " ++ py_format cut).

(** Step 1, lines 252-265. *)
Definition gather_context (query : str) (w : cli) : outcome str :=
  match current_context w with
  | _ :: _ => Return (join nl (lastn 3 (current_context w)))
  | [] =>
      results <- search_knowledge query w ;;
      match results with
      | _ :: _ =>
          parts <- map_outcome format_result (firstn 2 results) ;;
          Return (join nl parts)
      | [] => Return []
      end
  end.

(** Lines 291-292. *)
Definition trim_context (ctx : list str) : list str :=
  if 6 <? length ctx then lastn 6 ctx else ctx.

Definition user_line (query : str) : str :=
  lit "User: " ++ firstn 100 query ++ lit "...".

Definition assistant_line (cut : pyval) : str :=
  lit "Assistant: " ++ py_format cut ++ lit "...".

(** The [try] block of lines 284-300 after the client has returned
    [response]; the state is the one the [except] clause finds. *)
Definition record_response (now1 now2 : str) (query : str)
    (response : pyval) (w : cli) : cli * outcome pyval :=
  let w :=
    set_history (conversation_history w
                 ++ [role_message "user" (PStr query);
                     role_message "assistant" response]) w in
  let w := set_context (trim_context (current_context w)) w in
  let w := set_context (current_context w ++ [user_line query]) w in
  match py_slice response 200 with
  | Raise e => (w, Raise e)
  | Return cut =>
      let w := set_context (current_context w ++ [assistant_line cut]) w in
      match add_to_knowledge now1 now2 query response w with
      | Raise e => (w, Raise e)
      | Return w' => (w', Return response)
      end
  end.

(** Lines 282-304: the call of the client and what follows it, [http]
    being the network's answer to the prompt. *)
Definition complete_turn (ev : event) (query : str) (w : cli)
    (http : http_result) : answer * cli :=
  match DeepSeekAPI_query http with
  | Raise e => (ApiError e, w)
  | Return response =>
      match record_response (now1 ev) (now2 ev) query response w with
      | (w', Return r) => (Response r, w')
      | (w', Raise e) => (ApiError e, w')
      end
  end.

(** Lines 246-308.  An exception of step 1 leaves the method, and the
    state untouched. *)
Definition handle_user_query (ev : event) (query : str) (w : cli)
  : outcome (answer * cli) :=
  context <- gather_context query w ;;
  match deepseek w with
  | Some _ =>
      let prompt := build_prompt context query in
      Return (complete_turn ev query w (api ev prompt))
  | None => Return (NoApiKey, w)
  end.

(** Lines 236-244. *)
Definition setup_api_key (api_key : str) (w : cli) : cli :=
  let config := PDict [ (k_api_key, PStr api_key) ] in
  set_deepseek (Some (PStr api_key)) (set_config_file (Json config) w).

(** What [/search] evaluates while it prints (lines 187-193). *)
Definition search_command (args : list str) (w : cli) : outcome unit :=
  let query := join (lit " ") args in
  results <- search_knowledge query w ;;
  _ <- map_outcome (fun result =>
                      content <- py_getitem result k_content ;;
                      text <- py_getitem content k_instructions ;;
                      py_slice text 100)
                   (firstn 5 results) ;;
  Return tt.

(** What [/list] evaluates while it prints (lines 197-204). *)
Definition list_command (w : cli) : outcome unit :=
  let knowledge := load_knowledge w in
  convs <- py_get knowledge k_conversations (PList []) ;;
  _ <- py_len convs ;;
  ci <- py_get knowledge k_core_instructions (PDict []) ;;
  _ <- py_len ci ;;
  ci <- py_get knowledge k_core_instructions PNone ;;
  if py_truthy ci then
    ci <- py_getitem knowledge k_core_instructions ;;
    _ <- py_items ci ;;
    Return tt
  else Return tt.

(** Lines 168-218.  Printing is not part of the state: a command that only
    prints returns the state it was given. *)
Definition handle_slash_command (ev : event) (command : str) (w : cli)
  : outcome (cli * control) :=
  let cmd_parts := split_ws command [] in
  match cmd_parts with
  | [] => Raise IndexError
  | first :: args =>
      let cmd := lower first in
      if str_eqb cmd (lit "help") then Return (w, Continue)
      else if str_eqb cmd (lit "clear") then
        Return (set_context [] (set_history [] w), Continue)
      else if str_eqb cmd (lit "context") then Return (w, Continue)
      else if str_eqb cmd (lit "search") && (1 <? length cmd_parts) then
        _ <- search_command args w ;; Return (w, Continue)
      else if str_eqb cmd (lit "list") then
        _ <- list_command w ;; Return (w, Continue)
      else if str_eqb cmd (lit "save") then
        match conversation_history w with
        | _ :: _ =>
            w' <- save_conversation (now1 ev) w ;; Return (w', Continue)
        | [] => Return (w, Continue)
        end
      else if str_eqb cmd (lit "setup") && (1 <? length cmd_parts) then
        match args with
        | key :: _ => Return (setup_api_key key w, Continue)
        | [] => Return (w, Continue)
        end
      else if str_eqb cmd (lit "exit") then Return (w, Exit)
      else Return (w, Continue)
  end.

(** Lines 160-166. *)
Definition process_command (ev : event) (user_input : str) (w : cli)
  : outcome (cli * control) :=
  if startswith (lit "/") user_input then
    handle_slash_command ev (skipn 1 user_input) w
  else
    r <- handle_user_query ev user_input w ;;
    Return (snd r, Continue).

(** One pass through the body of the loop of lines 313-337; [except
    Exception] keeps the loop going with the state as the exception left
    it. *)
Definition turn (ev : event) (w : cli) : cli * control :=
  match strip (input ev) with
  | [] => (w, Continue)
  | user_input =>
      match process_command ev user_input w with
      | Return r => r
      | Raise _ => (w, Continue)
      end
  end.

(** The loop until [/exit] or the end of the input. *)
Fixpoint run_loop (evs : list event) (w : cli) : cli :=
  match evs with
  | [] => w
  | ev :: rest =>
      match turn ev w with
      | (w', Continue) => run_loop rest w'
      | (w', Exit) => w'
      end
  end.

(** [run]: the loop, then the [finally] block of lines 339-343, [now] being
    the clock at that moment. *)
Definition run (evs : list event) (now : str) (w : cli) : cli :=
  let w := run_loop evs w in
  match conversation_history w with
  | [] => w
  | _ :: _ =>
      match save_conversation now w with
      | Return w' => w'
      | Raise _ => w
      end
  end.

End Pipeline.

(** [__init__], lines 24-35 and 49-66: [env_key] is the value of
    DEEPSEEK_API_KEY, the two files are what the disk holds. *)
Definition load_api_key (env_key : option str) (config : file)
  : option pyval :=
  let api_key :=
    match env_key with
    | Some (c :: k) => PStr (c :: k)
    | _ =>
        match config with
        | Json (PDict d) =>
            match dict_get k_api_key d with
            | Some v => v
            | None => PNone
            end
        | _ => match env_key with Some k => PStr k | None => PNone end
        end
    end in
  if py_truthy api_key then Some api_key else None.

Definition init (env_key : option str) (knowledge config : file) : cli :=
  setup_directories
    (mkCli knowledge config (load_api_key env_key config) [] []).

(* ================================================================== *)
(** ** Reading a document *)
(* ================================================================== *)

(** The [conversations] list and the [core_instructions] mapping of a
    document; a document without them shows none. *)
Definition conversations_of (knowledge : pyval) : list pyval :=
  match knowledge with
  | PDict d =>
      match dict_get k_conversations d with
      | Some (PList cs) => cs
      | _ => []
      end
  | _ => []
  end.

Definition core_instructions_of (knowledge : pyval) : dict :=
  match knowledge with
  | PDict d =>
      match dict_get k_core_instructions d with
      | Some (PDict ci) => ci
      | _ => []
      end
  | _ => []
  end.

Definition field (k : str) (v : pyval) : option pyval :=
  match v with
  | PDict d => dict_get k d
  | _ => None
  end.

(** A document the program can extend: a dict whose [core_instructions] is
    a dict and whose [conversations], when present, is a list. *)
Definition well_shaped (knowledge : pyval) : bool :=
  match knowledge with
  | PDict d =>
      match dict_get k_core_instructions d with
      | Some (PDict _) => true
      | _ => false
      end
      && match dict_get k_conversations d with
         | None | Some (PList _) => true
         | _ => false
         end
  | _ => false
  end.

(** The text of an instruction entry. *)
Definition text_of (entry : pyval) : str :=
  match field k_instructions entry with
  | Some (PStr s) => s
  | _ => []
  end.

Definition has_text (entry : pyval) : bool :=
  match field k_instructions entry with
  | Some (PStr _) => true
  | _ => false
  end.

(** A document search can read: every entry carries a string under
    [instructions]. *)
Definition searchable (knowledge : pyval) : bool :=
  match knowledge with
  | PDict d =>
      match dict_get k_core_instructions d with
      | Some (PDict ci) => forallb (fun kv => has_text (snd kv)) ci
      | _ => false
      end
  | _ => false
  end.

(** The test of lines 85-89: the lowered [query] is a substring of the
    lowered [text]. *)
Definition icontains (query text : str) : bool :=
  contains (lower query) (lower text).

Definition hit (query : str) (kv : str * pyval) : bool :=
  icontains query (fst kv) || icontains query (text_of (snd kv)).

(** How a match is shown in the prompt (line 260), for an entry whose
    instructions are a string. *)
Definition shown (kv : str * pyval) : str :=
  fst kv ++ lit ": " ++ firstn 200 (text_of (snd kv)).

Definition usage_one (entry : pyval) : bool :=
  match field k_usage_count entry with
  | Some (PInt 1) => true
  | _ => false
  end.

Definition all_usage_one (knowledge : pyval) : bool :=
  forallb (fun kv => usage_one (snd kv)) (core_instructions_of knowledge).

(** The rolling context after one recorded exchange (lines 291-295), for a
    response that is a string. *)
Definition exchange (ctx : list str) (qr : str * str) : list str :=
  trim_context ctx
  ++ [ user_line (fst qr);
       lit "Assistant: " ++ firstn 200 (snd qr) ++ lit "..." ].

(** The session after lines 287-295 for a response [r] that is a string:
    both turns are in the history and the context has moved on. *)
Definition noted (query r : str) (w : cli) : cli :=
  set_context (exchange (current_context w) (query, r))
    (set_history
       (conversation_history w
        ++ [role_message "user" (PStr query);
            role_message "assistant" (PStr r)]) w).

(** The text [DeepSeekAPI.query] returns for an exception one of its
    [except] clauses names. *)
Definition error_text (e : exn) : option str :=
  match e with
  | RequestException msg => Some (lit "API Error: " ++ msg)
  | KeyError | JSONDecodeError => Some invalid_format
  | _ => None
  end.

(** A well-formed chat completion carrying [content]. *)
Definition completion (content : str) : pyval :=
  PDict [ (lit "choices",
           PList [ PDict [ (lit "message",
                            PDict [ (lit "content", PStr content) ]) ] ]) ].

(** [knowledge'] continues [knowledge]: its conversations start with those
    of [knowledge], every topic of [knowledge] is still a topic, usage
    counts that were all 1 are all 1, and a document that was well shaped,
    or searchable, still is. *)
Definition grows (knowledge knowledge' : pyval) : Prop :=
  (exists added,
      conversations_of knowledge'
      = conversations_of knowledge ++ added) /\
  (forall topic,
      dict_mem topic (core_instructions_of knowledge) = true ->
      dict_mem topic (core_instructions_of knowledge') = true) /\
  (all_usage_one knowledge = true -> all_usage_one knowledge' = true) /\
  (well_shaped knowledge = true -> well_shaped knowledge' = true) /\
  (searchable knowledge = true -> searchable knowledge' = true).

(* ================================================================== *)
(** ** Sample sessions *)
(* ================================================================== *)

(** A first run in an empty directory, with a key in the environment. *)
Definition fresh : cli := init (Some (lit "sk-test")) Absent Absent.

Definition stamp1 : str := lit "2024-05-01T10:00:00".
Definition stamp2 : str := lit "2024-05-01T10:00:01".

Definition after_add (query response : str) (w : cli) : cli :=
  match add_to_knowledge stamp1 stamp2 query (PStr response) w with
  | Return w' => w'
  | Raise _ => w
  end.

Definition mutex_query : str := lit "What is a mutex?".

Definition mutex_response : str :=
  lit "1. A mutex is a lock." ++ nl
  ++ lit "2. Only one holder at a time." ++ nl
  ++ lit "Some trailing text.".

(** Three numbered lines, the first one indented. *)
Definition indented_response : str :=
  lit "  1. Lock the mutex." ++ nl
  ++ lit "2. Do the work." ++ nl
  ++ lit "3. Unlock it.".

(** The store of the search scenario: the topic "database indexing" with
    instructions that mention "B-tree". *)
Definition btree_store : cli :=
  after_add (lit "database indexing")
            (lit "1. Use a B-tree for range scans.") fresh.

(** A network that answers every prompt with the same text. *)
Definition constant_api (content : str) (prompt : str) : http_result :=
  HttpJson (completion content).

Definition ask (question : string) : event :=
  mkEvent (lit question) (constant_api (lit "ok")) stamp1 stamp2.

Definition four_questions : list event :=
  [ask "one"; ask "two"; ask "three"; ask "four"].

Definition five_questions : list event := four_questions ++ [ask "five"].

(** A network that answers a prompt with the prompt itself, and a question
    put to it. *)
Definition echo_api (prompt : str) : http_result :=
  HttpJson (completion prompt).

Definition tell (question : string) : event :=
  mkEvent (lit question) echo_api stamp1 stamp2.

(** A body that parses but has no choice in it, and the turn that
    receives it. *)
Definition empty_choices : http_result :=
  HttpJson (PDict [ (lit "choices", PList []) ]).

Definition hello_empty_choices : event :=
  mkEvent (lit "hello") (fun _ => empty_choices) stamp1 stamp2.

(** A turn whose request fails in transport, with a message of its own. *)
Definition refused : str := lit "important: connection refused".

Definition hello_refused : event :=
  mkEvent (lit "hello") (fun _ => HttpRaises (RequestException refused))
          stamp1 stamp2.

(* ================================================================== *)
(** ** Further notions used by the properties *)
(* ================================================================== *)

(** A stored core point: no whitespace at either end, no line break
    inside. *)
Definition clean_point (p : str) : Prop :=
  (forall c rest, p = c :: rest -> is_space c = false) /\
  (forall c front, p = front ++ [c] -> is_space c = false) /\
  ~ In 10%N p.

(** The batch record of lines 225-229. *)
Definition batch_record (now : str) (history : list pyval)
    (context : list str) : pyval :=
  PDict [ (k_timestamp, PStr now);
          (k_history, PList history);
          (k_context, PList (map PStr context)) ].

(** The history made of complete exchanges. *)
Definition dialogue (pairs : list (str * pyval)) : list pyval :=
  flat_map (fun qr => [ role_message "user" (PStr (fst qr));
                        role_message "assistant" (snd qr) ]) pairs.

(** A line of the rolling context as lines 294-295 write it. *)
Definition context_line (s : str) : bool :=
  startswith (lit "User: ") s || startswith (lit "Assistant: ") s.

(** The instruction entry [entry] under [topic] points at a conversation
    record of [convs] whose stored query gives that topic. *)
Definition points_at (convs : list pyval) (topic : str) (entry : pyval)
  : bool :=
  match field k_source_conversation entry with
  | Some (PInt i) =>
      (0 <=? i)%Z &&
      match nth_error convs (Z.to_nat i) with
      | Some record =>
          match field k_query record with
          | Some (PStr q) => str_eqb (topic_of q) topic
          | _ => false
          end
      | None => false
      end
  | _ => false
  end.

Definition indexed (knowledge : pyval) : bool :=
  forallb (fun kv => points_at (conversations_of knowledge) (fst kv) (snd kv))
          (core_instructions_of knowledge).

(** What one pass of the loop may do to the store file. *)
Inductive store_step (w w' : cli) : Prop :=
| store_kept :
    knowledge_file w' = knowledge_file w -> store_step w w'
| store_added (t1 t2 query : str) (response : pyval) (w0 : cli) :
    knowledge_file w0 = knowledge_file w ->
    add_to_knowledge t1 t2 query response w0 = Return w' ->
    store_step w w'
| store_saved (now : str) :
    save_conversation now w = Return w' -> store_step w w'.

(** What one pass of the loop may do to the history and the rolling
    context. *)
Inductive session_step (w w' : cli) : Prop :=
| session_kept :
    conversation_history w' = conversation_history w ->
    current_context w' = current_context w ->
    session_step w w'
| session_cleared :
    conversation_history w' = [] ->
    current_context w' = [] ->
    session_step w w'
| session_recorded (query : str) (response : pyval) (tail : list str) :
    conversation_history w'
    = conversation_history w ++ dialogue [(query, response)] ->
    current_context w'
    = trim_context (current_context w) ++ user_line query :: tail ->
    tail = [] \/
    (exists line, tail = [line] /\ startswith (lit "Assistant: ") line = true) ->
    session_step w w'.


(* ================================================================== *)
(** * Properties *)
(* ================================================================== *)

(** ** Strings *)

Lemma str_eqb_eq (a b : str) : str_eqb a b = true <-> a = b.
Proof.
  unfold str_eqb. destruct (list_eq_dec N.eq_dec a b); split;
    intros; congruence.
Qed.

Lemma str_eqb_refl (a : str) : str_eqb a a = true.
Proof. apply str_eqb_eq. reflexivity. Qed.

Lemma str_eqb_neq (a b : str) : str_eqb a b = false <-> a <> b.
Proof.
  unfold str_eqb. destruct (list_eq_dec N.eq_dec a b); split;
    intros; congruence.
Qed.

Lemma str_eqb_sym (a b : str) : str_eqb a b = str_eqb b a.
Proof.
  destruct (str_eqb b a) eqn:E.
  - apply str_eqb_eq in E. subst. apply str_eqb_refl.
  - apply str_eqb_neq in E. apply str_eqb_neq. congruence.
Qed.

Lemma startswith_spec (p s : str) :
  startswith p s = true <-> exists r, s = p ++ r.
Proof.
  revert s. induction p as [|a p IH]; intros s; simpl.
  - split; eauto.
  - destruct s as [|b s].
    + split; [discriminate | intros [r Hr]; discriminate].
    + rewrite andb_true_iff, N.eqb_eq, IH. split.
      * intros [-> [r ->]]. eauto.
      * intros [r Hr]. injection Hr as -> ->. eauto.
Qed.

Lemma contains_spec (needle hay : str) :
  contains needle hay = true <->
  exists pre post, hay = pre ++ needle ++ post.
Proof.
  induction hay as [|c hay IH]; simpl.
  - rewrite orb_false_r, startswith_spec. split.
    + intros [r Hr]. exists [], r. exact Hr.
    + intros [pre [post H]]. destruct pre; simpl in H.
      * eauto.
      * discriminate.
  - rewrite orb_true_iff, startswith_spec, IH. split.
    + intros [[r Hr] | [pre [post H]]].
      * exists [], r. exact Hr.
      * exists (c :: pre), post. simpl. now rewrite H.
    + intros [pre [post H]]. destruct pre as [|c' pre]; simpl in H.
      * left. eauto.
      * right. injection H as _ H. eauto.
Qed.

Lemma contains_nil (hay : str) : contains [] hay = true.
Proof. destruct hay; reflexivity. Qed.

(** The boolean test of the code is the substring relation on the lowered
    texts. *)
Lemma icontains_spec (query text : str) :
  icontains query text = true <->
  exists pre post, lower text = pre ++ lower query ++ post.
Proof. unfold icontains. apply contains_spec. Qed.


Lemma is_ascii_app (a b : str) :
  is_ascii (a ++ b) = is_ascii a && is_ascii b.
Proof. apply forallb_app. Qed.



Lemma firstn_length_le {A} (n : nat) (l : list A) :
  length (firstn n l) <= n.
Proof. rewrite length_firstn. lia. Qed.

Lemma split_lines_nonempty (s : str) : split_lines s <> [].
Proof.
  destruct s as [|c s]; simpl; [discriminate|].
  destruct (c =? 10)%N; [discriminate|].
  destruct (split_lines s); discriminate.
Qed.

Lemma join_singleton (sep x : str) : join sep [x] = x.
Proof. reflexivity. Qed.

Lemma join_cons2 (sep x y : str) (l : list str) :
  join sep (x :: y :: l) = x ++ sep ++ join sep (y :: l).
Proof. reflexivity. Qed.

Lemma lastn_short {A} (n : nat) (l : list A) :
  length l <= n -> lastn n l = l.
Proof.
  intros H. unfold lastn. replace (length l - n) with 0 by lia. reflexivity.
Qed.

Lemma lastn_length {A} (n : nat) (l : list A) :
  length (lastn n l) = Nat.min n (length l).
Proof. unfold lastn. rewrite length_skipn. lia. Qed.

Lemma lastn_app {A} (n : nat) (l r : list A) :
  length r = n -> lastn n (l ++ r) = r.
Proof.
  intros H. unfold lastn. rewrite length_app.
  replace (length l + length r - n) with (length l) by lia.
  rewrite skipn_app, skipn_all, Nat.sub_diag. reflexivity.
Qed.

(** ** Dictionaries *)

Lemma dict_get_set_same (k : str) (v : pyval) (d : dict) :
  dict_get k (dict_set k v d) = Some v.
Proof.
  induction d as [|[k' v'] d IH]; simpl.
  - now rewrite str_eqb_refl.
  - destruct (str_eqb k' k) eqn:E; simpl.
    + now rewrite str_eqb_refl.
    + now rewrite E.
Qed.

Lemma dict_get_set_other (k k' : str) (v : pyval) (d : dict) :
  k <> k' -> dict_get k' (dict_set k v d) = dict_get k' d.
Proof.
  intros Hne. induction d as [|[k0 v0] d IH]; simpl.
  - destruct (str_eqb k k') eqn:E; [apply str_eqb_eq in E; contradiction|].
    reflexivity.
  - destruct (str_eqb k0 k) eqn:E; simpl.
    + apply str_eqb_eq in E. subst k0.
      destruct (str_eqb k k') eqn:E'; [apply str_eqb_eq in E'; contradiction|].
      reflexivity.
    + destruct (str_eqb k0 k'); [reflexivity | exact IH].
Qed.

Lemma dict_get_set (k k' : str) (v : pyval) (d : dict) :
  dict_get k' (dict_set k v d)
  = if str_eqb k k' then Some v else dict_get k' d.
Proof.
  destruct (str_eqb k k') eqn:E.
  - apply str_eqb_eq in E. subst. apply dict_get_set_same.
  - apply str_eqb_neq in E. now apply dict_get_set_other.
Qed.

Lemma dict_set_length (k : str) (v : pyval) (d : dict) :
  length (dict_set k v d) = length d + (if dict_mem k d then 0 else 1).
Proof.
  unfold dict_mem. induction d as [|[k' v'] d IH]; simpl; [reflexivity|].
  destruct (str_eqb k' k); simpl; [lia|].
  rewrite IH. destruct (dict_get k d); lia.
Qed.

Lemma dict_set_absent (k : str) (v : pyval) (d : dict) :
  dict_get k d = None -> dict_set k v d = d ++ [(k, v)].
Proof.
  induction d as [|[k' v'] d IH]; simpl; [reflexivity|].
  destruct (str_eqb k' k); [discriminate|].
  intros H. now rewrite IH.
Qed.

Lemma dict_mem_set (k k' : str) (v : pyval) (d : dict) :
  dict_mem k' d = true -> dict_mem k' (dict_set k v d) = true.
Proof.
  unfold dict_mem. rewrite dict_get_set.
  destruct (str_eqb k k'); [reflexivity | trivial].
Qed.

(** Overwriting keeps the order of the keys: the keys are those of [d],
    followed by [k] when it is new. *)
Lemma dict_set_keys (k : str) (v : pyval) (d : dict) :
  keys (dict_set k v d) = keys d ++ (if dict_mem k d then [] else [k]).
Proof.
  unfold keys, dict_mem. induction d as [|[k' v'] d IH]; simpl; [reflexivity|].
  destruct (str_eqb k' k) eqn:E; simpl.
  - apply str_eqb_eq in E. subst. now rewrite app_nil_r.
  - now rewrite IH.
Qed.

(** ** The extraction loop *)

Lemma collect_core_points_acc (lines acc : list str) :
  length acc < 3 ->
  collect_core_points lines acc
  = firstn 3 (acc ++ map strip (filter is_core_point lines)).
Proof.
  revert acc. induction lines as [|line rest IH]; intros acc Hacc;
    cbn [collect_core_points filter map].
  - rewrite app_nil_r, firstn_all2; [reflexivity | lia].
  - destruct (is_core_point line); cbn [map].
    + destruct (3 <=? length (acc ++ [strip line])) eqn:E.
      * apply Nat.leb_le in E.
        change (acc ++ strip line :: map strip (filter is_core_point rest))
          with (acc ++ [strip line] ++ map strip (filter is_core_point rest)).
        rewrite app_assoc, firstn_app.
        assert (L : length (acc ++ [strip line]) = 3)
          by (rewrite length_app in *; cbn [length] in *; lia).
        rewrite firstn_all2 by lia. rewrite L, Nat.sub_diag.
        cbn [firstn]. now rewrite app_nil_r.
      * apply Nat.leb_gt in E. rewrite IH by exact E.
        now rewrite <- app_assoc.
    + now apply IH.
Qed.

(** The loop keeps the first three matching lines, stripped, in the order
    of the response. *)
Lemma collect_core_points_spec (lines : list str) :
  collect_core_points lines []
  = map strip (firstn 3 (filter is_core_point lines)).
Proof.
  rewrite collect_core_points_acc by (cbn [length]; lia).
  cbn [app]. now rewrite firstn_map.
Qed.

(** ** Appending a conversation record *)

Lemma keys_differ : k_core_instructions <> k_conversations.
Proof. intros H. vm_compute in H. discriminate. Qed.

Lemma str_eqb_conv_ci : str_eqb k_conversations k_core_instructions = false.
Proof. reflexivity. Qed.

Lemma str_eqb_ci_conv : str_eqb k_core_instructions k_conversations = false.
Proof. reflexivity. Qed.

(** [append_conversation] by cases on the document. *)
Lemma append_conversation_cases (knowledge record : pyval) :
  append_conversation knowledge record =
  match knowledge with
  | PDict d =>
      match dict_get k_conversations d with
      | None =>
          Return (PDict (dict_set k_conversations (PList [record])
                           (dict_set k_conversations (PList []) d)))
      | Some (PList cs) =>
          Return (PDict (dict_set k_conversations (PList (cs ++ [record])) d))
      | Some _ => Raise AttributeError
      end
  | _ => Raise TypeError
  end.
Proof.
  unfold append_conversation.
  destruct knowledge as [| b | z | s | l | d];
    try reflexivity.
  - cbn [py_in bind]. destruct (contains k_conversations s); reflexivity.
  - cbn [py_in bind].
    destruct (existsb _ l); reflexivity.
  - cbn [py_in bind]. unfold dict_mem.
    destruct (dict_get k_conversations d) as [v|] eqn:E.
    + cbn [bind py_getitem]. rewrite E. cbn [bind].
      destruct v; reflexivity.
    + cbn [bind py_setitem py_getitem]. rewrite dict_get_set_same.
      reflexivity.
Qed.

(** When it returns, the document was a dict, and the new document differs
    from it at the key [conversations] only, where the list has grown by
    the record. *)
Lemma append_conversation_inv (knowledge record knowledge' : pyval) :
  append_conversation knowledge record = Return knowledge' ->
  exists d d',
    knowledge = PDict d /\ knowledge' = PDict d' /\
    forall key,
      dict_get key d'
      = if str_eqb k_conversations key
        then Some (PList (conversations_of knowledge ++ [record]))
        else dict_get key d.
Proof.
  rewrite append_conversation_cases.
  destruct knowledge as [| b | z | s | l | d]; try discriminate.
  unfold conversations_of.
  destruct (dict_get k_conversations d) as [v|] eqn:E.
  - destruct v as [| b | z | s | cs | d0]; try discriminate.
    intros H. injection H as <-. exists d. eexists. split; [reflexivity|].
    split; [reflexivity|]. intros key. apply dict_get_set.
  - intros H. injection H as <-. exists d. eexists. split; [reflexivity|].
    split; [reflexivity|]. intros key. rewrite !dict_get_set.
    destruct (str_eqb k_conversations key); reflexivity.
Qed.

(** A well-shaped document accepts the record. *)
Lemma append_conversation_ok (knowledge record : pyval) :
  well_shaped knowledge = true ->
  exists knowledge', append_conversation knowledge record = Return knowledge'.
Proof.
  rewrite append_conversation_cases. unfold well_shaped.
  destruct knowledge as [| b | z | s | l | d]; try discriminate.
  rewrite andb_true_iff. intros [_ H].
  destruct (dict_get k_conversations d) as [v|]; [|eauto].
  destruct v; try discriminate. eauto.
Qed.

Lemma conversations_of_lookup (d : dict) (cs : list pyval) :
  dict_get k_conversations d = Some (PList cs) ->
  conversations_of (PDict d) = cs.
Proof. intros H. unfold conversations_of. now rewrite H. Qed.

Lemma core_instructions_of_lookup (d ci : dict) :
  dict_get k_core_instructions d = Some (PDict ci) ->
  core_instructions_of (PDict d) = ci.
Proof. intros H. unfold core_instructions_of. now rewrite H. Qed.

Lemma forallb_dict_set (f : pyval -> bool) (k : str) (v : pyval) (d : dict) :
  forallb (fun kv => f (snd kv)) d = true -> f v = true ->
  forallb (fun kv => f (snd kv)) (dict_set k v d) = true.
Proof.
  intros Hd Hv. induction d as [|[k' v'] d IH]; cbn [dict_set forallb snd].
  - now rewrite Hv.
  - cbn [forallb snd] in Hd. apply andb_true_iff in Hd as [H1 H2].
    destruct (str_eqb k' k); cbn [forallb snd].
    + now rewrite Hv, H2.
    + now rewrite H1, IH.
Qed.

(** ** [add_to_knowledge] *)

Lemma source_index (cs : list pyval) (r : pyval) :
  (Z.of_nat (length (cs ++ [r])) - 1)%Z = Z.of_nat (length cs).
Proof. rewrite length_app. cbn [length]. lia. Qed.

(** What a call that returns has done. *)
Lemma add_to_knowledge_inv (t1 t2 query : str) (response : pyval)
    (w w' : cli) :
  add_to_knowledge t1 t2 query response w = Return w' ->
  exists d d' answer lines,
    load_knowledge w = PDict d /\
    w' = save_knowledge (PDict d') w /\
    py_slice response 1000 = Return answer /\
    py_split response = Return lines /\
    conversations_of (PDict d')
    = conversations_of (PDict d)
      ++ [conversation_record t1 query answer (current_context w)] /\
    (forall key,
        key <> k_conversations -> key <> k_core_instructions ->
        dict_get key d' = dict_get key d) /\
    match collect_core_points lines [] with
    | [] => dict_get k_core_instructions d' = dict_get k_core_instructions d
    | (_ :: _) as core_points =>
        exists ci,
          dict_get k_core_instructions d = Some (PDict ci) /\
          dict_get k_core_instructions d'
          = Some (PDict (dict_set (topic_of query)
                           (instruction_entry t2 core_points
                              (Z.of_nat (length (conversations_of (PDict d)))))
                           ci))
    end.
Proof.
  unfold add_to_knowledge.
  destruct (py_slice response 1000) as [answer|e] eqn:Hs; [|discriminate].
  cbn [bind].
  destruct (append_conversation (load_knowledge w) _) as [k1|e] eqn:Ha;
    [|discriminate].
  cbn [bind].
  destruct (py_split response) as [lines|e] eqn:Hl; [|discriminate].
  cbn [bind].
  apply append_conversation_inv in Ha as (d & d1 & Hd & -> & Hlook).
  rewrite Hd in Hlook.
  assert (Hconv : dict_get k_conversations d1
                  = Some (PList (conversations_of (PDict d)
                       ++ [conversation_record t1 query answer
                             (current_context w)]))).
  { rewrite Hlook, str_eqb_refl. reflexivity. }
  assert (Hci : dict_get k_core_instructions d1
                = dict_get k_core_instructions d).
  { rewrite Hlook, str_eqb_conv_ci. reflexivity. }
  assert (Hother : forall key, key <> k_conversations ->
                     dict_get key d1 = dict_get key d).
  { intros key Hk. rewrite Hlook.
    destruct (str_eqb k_conversations key) eqn:E; [|reflexivity].
    apply str_eqb_eq in E. congruence. }
  destruct (collect_core_points lines []) as [|p ps] eqn:Hc.
  - cbn [bind]. intros H. injection H as <-.
    exists d, d1, answer, lines. rewrite Hc.
    repeat split; auto.
    apply conversations_of_lookup. exact Hconv.
  - cbn [bind py_getitem]. rewrite Hconv. cbn [bind py_len].
    rewrite Hci.
    destruct (dict_get k_core_instructions d) as [v|] eqn:Ev;
      [|discriminate].
    cbn [bind].
    destruct v as [| b | z | s | l | ci]; try discriminate.
    cbn [py_setitem bind]. intros H. injection H as <-.
    exists d. eexists. exists answer, lines. rewrite Hc.
    split; [exact Hd|]. split; [reflexivity|].
    split; [reflexivity|]. split; [reflexivity|].
    split; [|split].
    + apply conversations_of_lookup.
      rewrite dict_get_set_other by exact keys_differ. exact Hconv.
    + intros key H1 H2. rewrite dict_get_set_other by congruence.
      now apply Hother.
    + exists ci. split; [exact Ev|].
      rewrite dict_get_set_same, source_index. reflexivity.
Qed.

(** On a well-shaped document and a response that is a string the call
    returns. *)
Lemma add_to_knowledge_total (t1 t2 query response : str) (w : cli) :
  well_shaped (load_knowledge w) = true ->
  exists w', add_to_knowledge t1 t2 query (PStr response) w = Return w'.
Proof.
  intros Hw. unfold add_to_knowledge. cbn [py_slice bind].
  destruct (append_conversation_ok (load_knowledge w)
              (conversation_record t1 query (PStr (firstn 1000 response))
                 (current_context w)) Hw) as [k1 Ha].
  rewrite Ha. cbn [bind py_split].
  apply append_conversation_inv in Ha as (d & d1 & Hd & -> & Hlook).
  rewrite Hd in Hw, Hlook.
  destruct (collect_core_points (split_lines response) []) as [|p ps];
    [cbn [bind]; eauto|].
  cbn [bind py_getitem]. rewrite !Hlook, str_eqb_refl, str_eqb_conv_ci.
  cbn [bind py_len]. unfold well_shaped in Hw.
  apply andb_true_iff in Hw as [Hw _].
  destruct (dict_get k_core_instructions d) as [v|]; [|discriminate].
  destruct v; try discriminate. cbn [bind py_setitem]. eauto.
Qed.

Lemma load_save (data : pyval) (w : cli) :
  load_knowledge (save_knowledge data w) = data.
Proof. reflexivity. Qed.

Lemma topic_of_cases (query : str) :
  topic_of query
  = if 50 <? length query then firstn 50 query ++ lit "..." else query.
Proof.
  unfold topic_of. destruct (50 <? length query) eqn:E; [reflexivity|].
  apply Nat.ltb_ge in E. rewrite firstn_all2 by exact E. apply app_nil_r.
Qed.

Lemma core_points_of_three (lines : list str) :
  3 <= length (filter is_core_point lines) ->
  exists p ps, collect_core_points lines [] = p :: ps.
Proof.
  intros H. rewrite collect_core_points_spec.
  destruct (filter is_core_point lines) as [|x xs]; cbn [length] in H;
    [lia|].
  cbn [firstn map]. eauto.
Qed.

(** C1 (amended).  For every query and every response with at least three
    lines matching the marker rules, [add_to_knowledge] on a well-shaped
    store writes exactly one entry of [core_instructions]: the one under the
    first 50 characters of the query, followed by "..." iff the query is
    longer than 50 (a new last entry when the key is new, otherwise the
    entry already under that key is replaced); every other entry is as
    before.  Its [instructions] are the first three matching lines in the
    order of the response, each stripped of surrounding whitespace, joined
    by newlines, and its [source_conversation] is the index of the
    conversation record appended by the same call. *)
Theorem add_to_knowledge_three_core_points
    (t1 t2 query response : str) (w : cli) :
  well_shaped (load_knowledge w) = true ->
  3 <= length (filter is_core_point (split_lines response)) ->
  exists w',
    add_to_knowledge t1 t2 query (PStr response) w = Return w' /\
    let before := load_knowledge w in
    let after := load_knowledge w' in
    let index := length (conversations_of before) in
    let three := firstn 3 (filter is_core_point (split_lines response)) in
    let entry := instruction_entry t2 (map strip three) (Z.of_nat index) in
    core_instructions_of after
    = dict_set (topic_of query) entry (core_instructions_of before) /\
    dict_get (topic_of query) (core_instructions_of after) = Some entry /\
    (forall topic,
        topic <> topic_of query ->
        dict_get topic (core_instructions_of after)
        = dict_get topic (core_instructions_of before)) /\
    length (core_instructions_of after)
    = length (core_instructions_of before)
      + (if dict_mem (topic_of query) (core_instructions_of before)
         then 0 else 1) /\
    topic_of query
    = (if 50 <? length query then firstn 50 query ++ lit "..." else query) /\
    field k_instructions entry = Some (PStr (join nl (map strip three))) /\
    field k_source_conversation entry = Some (PInt (Z.of_nat index)) /\
    nth_error (conversations_of after) index
    = Some (conversation_record t1 query (PStr (firstn 1000 response))
              (current_context w)).
Proof.
  intros Hw H3.
  destruct (add_to_knowledge_total t1 t2 query response w Hw) as [w' Hadd].
  exists w'. split; [exact Hadd|].
  apply add_to_knowledge_inv in Hadd
    as (d & d' & answer & lines & Hd & -> & Hs & Hl & Hconv & _ & Hcore).
  cbn [py_slice py_split] in Hs, Hl.
  injection Hs as <-. injection Hl as <-.
  destruct (core_points_of_three _ H3) as (p & ps & Hc).
  rewrite Hc in Hcore. destruct Hcore as (ci & Hci & Hci').
  rewrite <- Hc, collect_core_points_spec in Hci'.
  rewrite load_save, Hd. cbv zeta.
  rewrite (core_instructions_of_lookup _ _ Hci).
  rewrite (core_instructions_of_lookup _ _ Hci').
  split; [reflexivity|].
  split; [apply dict_get_set_same|].
  split; [intros topic Ht; apply dict_get_set_other; congruence|].
  split; [apply dict_set_length|].
  split; [apply topic_of_cases|].
  split; [reflexivity|].
  split; [reflexivity|].
  rewrite Hconv, nth_error_app2, Nat.sub_diag by lia. reflexivity.
Qed.

(** C5.  Every call of [add_to_knowledge] on a well-shaped store appends
    exactly one short-form record to [conversations], holding the first 500
    characters of the query and the first 1000 of the response; with no
    matching line in the response the record is still appended and
    [core_instructions] is left as it was.  On any store, a call that
    returns has appended exactly this record. *)
Theorem add_to_knowledge_appends_record
    (t1 t2 query response : str) (w : cli) :
  well_shaped (load_knowledge w) = true ->
  exists w',
    add_to_knowledge t1 t2 query (PStr response) w = Return w' /\
    let record :=
      conversation_record t1 query (PStr (firstn 1000 response))
        (current_context w) in
    conversations_of (load_knowledge w')
    = conversations_of (load_knowledge w) ++ [record] /\
    field k_query record = Some (PStr (firstn 500 query)) /\
    field k_response record = Some (PStr (firstn 1000 response)) /\
    length (firstn 500 query) = Nat.min 500 (length query) /\
    length (firstn 1000 response) = Nat.min 1000 (length response) /\
    (length query = 600 -> length (firstn 500 query) = 500) /\
    (length response = 1500 -> length (firstn 1000 response) = 1000) /\
    (filter is_core_point (split_lines response) = [] ->
     field k_core_instructions (load_knowledge w')
     = field k_core_instructions (load_knowledge w)) /\
    (forall (answer : pyval) (w0 w1 : cli),
        add_to_knowledge t1 t2 query answer w0 = Return w1 ->
        exists r,
          answer = PStr r /\
          conversations_of (load_knowledge w1)
          = conversations_of (load_knowledge w0)
            ++ [conversation_record t1 query (PStr (firstn 1000 r))
                  (current_context w0)]).
Proof.
  intros Hw.
  assert (Hany : forall (answer : pyval) (w0 w1 : cli),
             add_to_knowledge t1 t2 query answer w0 = Return w1 ->
             exists r,
               answer = PStr r /\
               conversations_of (load_knowledge w1)
               = conversations_of (load_knowledge w0)
                 ++ [conversation_record t1 query (PStr (firstn 1000 r))
                       (current_context w0)]).
  { intros answer w0 w1 H0.
    apply add_to_knowledge_inv in H0
      as (d & d' & cut & lines & Hd & -> & Hs & Hl & Hconv & _).
    destruct answer as [| b | z | r | l | a]; try discriminate Hl.
    cbn [py_slice] in Hs. injection Hs as <-.
    exists r. split; [reflexivity|]. now rewrite load_save, Hd. }
  destruct (add_to_knowledge_total t1 t2 query response w Hw) as [w' Hadd].
  exists w'. split; [exact Hadd|].
  apply add_to_knowledge_inv in Hadd
    as (d & d' & answer & lines & Hd & -> & Hs & Hl & Hconv & _ & Hcore).
  cbn [py_slice py_split] in Hs, Hl.
  injection Hs as <-. injection Hl as <-.
  rewrite load_save, Hd. cbv zeta.
  split; [exact Hconv|].
  split; [reflexivity|].
  split; [reflexivity|].
  split; [apply length_firstn|].
  split; [apply length_firstn|].
  split; [intros H; rewrite length_firstn; lia|].
  split; [intros H; rewrite length_firstn; lia|].
  split; [|exact Hany].
  intros Hnone. rewrite collect_core_points_spec, Hnone in Hcore.
  cbn [firstn map] in Hcore. exact Hcore.
Qed.

Lemma fresh_well_shaped : well_shaped (load_knowledge fresh) = true.
Proof. reflexivity. Qed.

(** ** Search *)

Lemma entry_matches_text (query topic : str) (entry : pyval) :
  has_text entry = true ->
  entry_matches (lower query) topic entry = Return (hit query (topic, entry)).
Proof.
  unfold has_text, entry_matches, hit, icontains, text_of, field.
  cbn [fst snd]. intros H.
  destruct (contains (lower query) (lower topic)); [reflexivity|].
  destruct entry as [| b | z | s | l | d]; try discriminate.
  cbn [py_getitem].
  destruct (dict_get k_instructions d) as [v|]; [|discriminate].
  destruct v; try discriminate. reflexivity.
Qed.

Lemma search_loop_spec (query : str) (items : dict) (results : list pyval) :
  forallb (fun kv => has_text (snd kv)) items = true ->
  search_loop (lower query) items results
  = Return (results
            ++ map (fun kv => search_result (fst kv) (snd kv))
                 (filter (hit query) items)).
Proof.
  revert results.
  induction items as [|[topic entry] rest IH]; intros results H;
    cbn [search_loop filter map].
  - now rewrite app_nil_r.
  - cbn [forallb snd] in H. apply andb_true_iff in H as [H1 H2].
    rewrite (entry_matches_text _ _ _ H1). cbn [bind].
    rewrite (IH _ H2).
    destruct (hit query (topic, entry)); cbn [map fst snd].
    + now rewrite <- app_assoc.
    + reflexivity.
Qed.

Lemma lower_nil : lower [] = [].
Proof. now rewrite lower_ascii. Qed.

Lemma search_loop_empty_query (items : dict) (results : list pyval) :
  search_loop (lower []) items results
  = Return (results ++ map (fun kv => search_result (fst kv) (snd kv)) items).
Proof.
  revert results.
  induction items as [|[topic entry] rest IH]; intros results;
    cbn [search_loop map].
  - now rewrite app_nil_r.
  - unfold entry_matches. rewrite lower_nil at 1. rewrite contains_nil.
    cbn [bind]. rewrite IH.
    cbn [fst snd]. now rewrite <- app_assoc.
Qed.



(** On a searchable store the result is the filtered mapping. *)
Lemma search_knowledge_filter (query : str) (w : cli) :
  searchable (load_knowledge w) = true ->
  search_knowledge query w
  = Return (map (fun kv => search_result (fst kv) (snd kv))
              (filter (hit query) (core_instructions_of (load_knowledge w)))).
Proof.
  unfold search_knowledge, searchable, core_instructions_of.
  destruct (load_knowledge w) as [| b | z | s | l | d]; try discriminate.
  cbn [py_getitem].
  destruct (dict_get k_core_instructions d) as [v|]; [|discriminate].
  destruct v as [| b | z | s | l | ci]; try discriminate.
  intros Hs. cbn [bind py_items]. now rewrite search_loop_spec.
Qed.

(** C10.  For the empty query [search] returns every stored entry, in the
    order of the mapping, each as a record with its type, topic and
    content. *)
Theorem search_knowledge_empty_query (w : cli) (d ci : dict) :
  load_knowledge w = PDict d ->
  dict_get k_core_instructions d = Some (PDict ci) ->
  let result (kv : str * pyval) :=
    PDict [ (lit "type", PStr (lit "core_instructions"));
            (lit "topic", PStr (fst kv));
            (lit "content", snd kv) ] in
  search_knowledge [] w = Return (map result ci) /\
  length (map result ci) = length ci /\
  (forall i topic entry,
      nth_error ci i = Some (topic, entry) ->
      nth_error (map result ci) i
      = Some (PDict [ (lit "type", PStr (lit "core_instructions"));
                      (lit "topic", PStr topic);
                      (lit "content", entry) ])).
Proof.
  intros Hd Hci result. unfold search_knowledge. rewrite Hd.
  cbn [py_getitem]. rewrite Hci. cbn [bind py_items].
  rewrite search_loop_empty_query.
  split; [reflexivity|]. split; [apply length_map|].
  intros i topic entry Hi. rewrite nth_error_map, Hi. reflexivity.
Qed.

(** ** Storage gateway *)

(** C6.  When the store file is missing or cannot be parsed,
    [load_knowledge] returns the default document, whose four fields are
    present and empty. *)
Theorem load_knowledge_default (w : cli) :
  knowledge_file w = Absent \/ knowledge_file w = Unparseable ->
  load_knowledge w = empty_knowledge /\
  field k_summary (load_knowledge w) = Some (PList []) /\
  field k_core_instructions (load_knowledge w) = Some (PDict []) /\
  field k_api_interactions (load_knowledge w) = Some (PList []) /\
  field k_conversations (load_knowledge w) = Some (PList []) /\
  (exists d,
      load_knowledge w = PDict d /\
      keys d = [k_summary; k_core_instructions; k_api_interactions;
                k_conversations]).
Proof.
  intros H.
  assert (E : load_knowledge w = empty_knowledge).
  { unfold load_knowledge. destruct H as [-> | ->]; reflexivity. }
  rewrite E. repeat split. eexists. split; reflexivity.
Qed.

(** C7.  A document saved with [save_knowledge] is the document
    [load_knowledge] returns afterwards, also when the configuration file
    is written in between; saving touches no other part of the state. *)
Theorem save_then_load (data : pyval) (w : cli) :
  load_knowledge (save_knowledge data w) = data /\
  (forall key,
      load_knowledge (setup_api_key key (save_knowledge data w)) = data) /\
  config_file (save_knowledge data w) = config_file w /\
  conversation_history (save_knowledge data w) = conversation_history w /\
  current_context (save_knowledge data w) = current_context w.
Proof. repeat split. Qed.

(** ** The rolling context *)

Lemma trim_context_length (ctx : list str) :
  length (trim_context ctx) = Nat.min (length ctx) 6.
Proof.
  unfold trim_context. destruct (6 <? length ctx) eqn:E.
  - apply Nat.ltb_lt in E. rewrite lastn_length. lia.
  - apply Nat.ltb_ge in E. lia.
Qed.

Lemma exchange_length (ctx : list str) (qr : str * str) :
  length (exchange ctx qr) = Nat.min (length ctx) 6 + 2.
Proof.
  unfold exchange. rewrite length_app, trim_context_length. reflexivity.
Qed.

Lemma exchanges_length_from (xs : list (str * str)) (ctx : list str) (k : nat) :
  length ctx = Nat.min (2 * k) 8 ->
  length (fold_left exchange xs ctx) = Nat.min (2 * (k + length xs)) 8.
Proof.
  revert ctx k. induction xs as [|x xs IH]; intros ctx k H; cbn [fold_left].
  - cbn [length]. rewrite H. f_equal. lia.
  - rewrite (IH _ (S k)).
    + cbn [length]. f_equal. lia.
    + rewrite exchange_length, H. lia.
Qed.

(** After [n] recorded exchanges the rolling context holds [2 n] entries,
    capped at 8: from the fourth exchange on it holds 8. *)
Lemma exchanges_length (xs : list (str * str)) :
  length (fold_left exchange xs []) = Nat.min (2 * length xs) 8.
Proof. apply (exchanges_length_from xs [] 0). reflexivity. Qed.

Lemma exchanges_steady (xs : list (str * str)) :
  3 < length xs -> length (fold_left exchange xs []) = 8.
Proof. intros H. rewrite exchanges_length. lia. Qed.

(** ** The store only grows *)

Lemma grows_refl (knowledge : pyval) : grows knowledge knowledge.
Proof.
  repeat split; auto. exists []. now rewrite app_nil_r.
Qed.

Lemma grows_trans (k1 k2 k3 : pyval) :
  grows k1 k2 -> grows k2 k3 -> grows k1 k3.
Proof.
  intros ([a1 H1] & T1 & U1 & W1 & S1) ([a2 H2] & T2 & U2 & W2 & S2).
  repeat split; auto.
  exists (a1 ++ a2). now rewrite H2, H1, app_assoc.
Qed.

Lemma usage_one_entry (now : str) (core_points : list str) (source : Z) :
  usage_one (instruction_entry now core_points source) = true.
Proof. reflexivity. Qed.

Lemma append_conversation_grows (knowledge record knowledge' : pyval) :
  append_conversation knowledge record = Return knowledge' ->
  grows knowledge knowledge'.
Proof.
  intros H. apply append_conversation_inv in H as (d & d' & -> & -> & Hlook).
  assert (Hc : conversations_of (PDict d')
               = conversations_of (PDict d) ++ [record]).
  { apply conversations_of_lookup. now rewrite Hlook, str_eqb_refl. }
  assert (Hl : dict_get k_core_instructions d'
               = dict_get k_core_instructions d).
  { now rewrite Hlook, str_eqb_conv_ci. }
  assert (Hi : core_instructions_of (PDict d')
               = core_instructions_of (PDict d)).
  { unfold core_instructions_of. now rewrite Hl. }
  unfold grows, all_usage_one. rewrite Hi.
  split; [eauto|]. split; [auto|]. split; [auto|]. split.
  - unfold well_shaped. rewrite Hl, (Hlook k_conversations), str_eqb_refl.
    rewrite !andb_true_iff. tauto.
  - unfold searchable. now rewrite Hl.
Qed.

Lemma add_to_knowledge_grows (t1 t2 query : str) (response : pyval)
    (w w' : cli) :
  add_to_knowledge t1 t2 query response w = Return w' ->
  config_file w' = config_file w /\
  deepseek w' = deepseek w /\
  conversation_history w' = conversation_history w /\
  current_context w' = current_context w /\
  grows (load_knowledge w) (load_knowledge w').
Proof.
  intros H. apply add_to_knowledge_inv in H
    as (d & d' & answer & lines & Hd & -> & _ & _ & Hconv & _ & Hcore).
  repeat (split; [reflexivity|]).
  rewrite load_save, Hd. unfold grows, all_usage_one.
  split; [eauto|].
  assert (Hc : exists cs, dict_get k_conversations d' = Some (PList cs)).
  { unfold conversations_of in Hconv.
    destruct (dict_get k_conversations d') as [v|].
    - destruct v; try (now destruct (app_cons_not_nil _ _ _ Hconv)). eauto.
    - now destruct (app_cons_not_nil _ _ _ Hconv). }
  destruct Hc as [cs Hc].
  destruct (collect_core_points lines []) as [|p ps].
  - unfold core_instructions_of, well_shaped, searchable.
    rewrite Hcore, Hc. rewrite !andb_true_iff. repeat split; tauto.
  - destruct Hcore as (ci & Hci & Hci').
    rewrite (core_instructions_of_lookup _ _ Hci).
    rewrite (core_instructions_of_lookup _ _ Hci').
    unfold well_shaped, searchable. rewrite Hci, Hci', Hc.
    split; [intros topic; apply dict_mem_set|].
    split; [|split; [reflexivity|]].
    + intros Hu. apply forallb_dict_set; [exact Hu|].
      apply usage_one_entry.
    + intros Hu. apply (forallb_dict_set has_text); [exact Hu|].
      reflexivity.
Qed.

Lemma save_conversation_grows (now : str) (w w' : cli) :
  save_conversation now w = Return w' ->
  config_file w' = config_file w /\
  deepseek w' = deepseek w /\
  conversation_history w' = conversation_history w /\
  current_context w' = current_context w /\
  grows (load_knowledge w) (load_knowledge w').
Proof.
  unfold save_conversation.
  destruct (conversation_history w) as [|h hs] eqn:Eh.
  - intros H. injection H as <-. rewrite Eh.
    repeat (split; [reflexivity|]). apply grows_refl.
  - destruct (append_conversation (load_knowledge w) _) as [k|e] eqn:Ha;
      [|discriminate].
    cbn [bind]. intros H. injection H as <-.
    repeat (split; [first [reflexivity | now rewrite <- Eh]|]).
    rewrite load_save. now apply append_conversation_grows in Ha.
Qed.

Section PipelineFacts.

Variable py_repr : pyval -> str.

(** The [try] block for a response that is a string. *)
Lemma record_response_str (t1 t2 query r : str) (w : cli) :
  record_response py_repr t1 t2 query (PStr r) w
  = match add_to_knowledge t1 t2 query (PStr r) (noted query r w) with
    | Return w' => (w', Return (PStr r))
    | Raise e => (noted query r w, Raise e)
    end.
Proof.
  unfold record_response, noted, exchange, assistant_line.
  cbn [py_slice py_format fst snd current_context conversation_history
       set_context set_history knowledge_file config_file deepseek].
  rewrite <- app_assoc. reflexivity.
Qed.

(** A turn whose completion is the string [r] moves the rolling context by
    [exchange] and the history by two messages, whatever the store does. *)
Lemma handle_user_query_exchange (ev : event) (query context r : str)
    (w : cli) (key : pyval) :
  deepseek w = Some key ->
  gather_context py_repr query w = Return context ->
  DeepSeekAPI_query (api ev (build_prompt context query)) = Return (PStr r) ->
  exists a w',
    handle_user_query py_repr ev query w = Return (a, w') /\
    current_context w' = exchange (current_context w) (query, r) /\
    conversation_history w'
    = conversation_history w
      ++ [role_message "user" (PStr query);
          role_message "assistant" (PStr r)].
Proof.
  intros Hk Hg Hq. unfold handle_user_query. rewrite Hg, Hk. cbn [bind].
  unfold complete_turn. rewrite Hq, record_response_str.
  destruct (add_to_knowledge (now1 ev) (now2 ev) query (PStr r)
              (noted query r w)) as [w'|e] eqn:Ha.
  - apply add_to_knowledge_grows in Ha as (_ & _ & Hh & Hc & _).
    eexists. exists w'. split; [reflexivity|]. split; assumption.
  - eexists. eexists. split; [reflexivity|]. split; reflexivity.
Qed.

Lemma record_response_grows (t1 t2 query : str) (response : pyval)
    (w : cli) :
  grows (load_knowledge w)
        (load_knowledge (fst (record_response py_repr t1 t2 query response w))).
Proof.
  unfold record_response.
  destruct (py_slice response 200) as [cut|e]; [|apply grows_refl].
  match goal with
  | |- context [add_to_knowledge ?a ?b ?c ?d ?x] =>
      destruct (add_to_knowledge a b c d x) as [w'|e] eqn:Ha
  end.
  - apply add_to_knowledge_grows in Ha as (_ & _ & _ & _ & Hg). exact Hg.
  - apply grows_refl.
Qed.

Lemma complete_turn_grows (ev : event) (query : str) (w : cli)
    (http : http_result) :
  grows (load_knowledge w)
        (load_knowledge (snd (complete_turn py_repr ev query w http))).
Proof.
  unfold complete_turn.
  destruct (DeepSeekAPI_query http) as [response|e]; [|apply grows_refl].
  pose proof (record_response_grows (now1 ev) (now2 ev) query response w)
    as Hg.
  destruct (record_response py_repr (now1 ev) (now2 ev) query response w)
    as [w' [r|e]]; exact Hg.
Qed.

Lemma handle_user_query_grows (ev : event) (query : str) (w w' : cli)
    (a : answer) :
  handle_user_query py_repr ev query w = Return (a, w') ->
  grows (load_knowledge w) (load_knowledge w').
Proof.
  unfold handle_user_query.
  destruct (gather_context py_repr query w) as [context|e]; [|discriminate].
  cbn [bind]. destruct (deepseek w).
  - intros H. injection H as H.
    pose proof (complete_turn_grows ev query w
                  (api ev (build_prompt context query))) as Hg.
    rewrite H in Hg. exact Hg.
  - intros H. injection H as _ <-. apply grows_refl.
Qed.

Lemma handle_slash_command_grows (ev : event) (command : str)
    (w w' : cli) (c : control) :
  handle_slash_command ev command w = Return (w', c) ->
  grows (load_knowledge w) (load_knowledge w').
Proof.
  unfold handle_slash_command.
  destruct (split_ws command []) as [|first args]; [discriminate|].
  repeat match goal with
  | |- context [if ?b then _ else _] => destruct b
  end;
  try (intros H; injection H as <- _; apply grows_refl).
  - destruct (search_command args w); [|discriminate].
    cbn [bind]. intros H; injection H as <- _; apply grows_refl.
  - destruct (list_command w); [|discriminate].
    cbn [bind]. intros H; injection H as <- _; apply grows_refl.
  - destruct (save_conversation (now1 ev) w) as [w1|e] eqn:Hs;
      [|discriminate].
    cbn [bind]. intros H; injection H as <- _.
    now apply save_conversation_grows in Hs.
  - destruct args; intros H; injection H as <- _; apply grows_refl.
Qed.

Lemma turn_grows (ev : event) (w : cli) :
  grows (load_knowledge w) (load_knowledge (fst (turn py_repr ev w))).
Proof.
  unfold turn. destruct (strip (input ev)) as [|c user_input];
    [apply grows_refl|].
  destruct (process_command py_repr ev (c :: user_input) w)
    as [[w' ctl]|e] eqn:Hp; [|apply grows_refl].
  cbn [fst]. unfold process_command in Hp.
  destruct (startswith (lit "/") (c :: user_input)).
  - now apply handle_slash_command_grows in Hp.
  - destruct (handle_user_query py_repr ev (c :: user_input) w)
      as [[a w1]|e] eqn:Hq; [|discriminate].
    cbn [bind snd] in Hp. injection Hp as <- _.
    now apply handle_user_query_grows in Hq.
Qed.

Lemma run_loop_grows (evs : list event) (w : cli) :
  grows (load_knowledge w) (load_knowledge (run_loop py_repr evs w)).
Proof.
  revert w. induction evs as [|ev rest IH]; intros w; cbn [run_loop].
  - apply grows_refl.
  - pose proof (turn_grows ev w) as Hg.
    destruct (turn py_repr ev w) as [w' [|]]; cbn [fst] in Hg.
    + eapply grows_trans; [exact Hg | apply IH].
    + exact Hg.
Qed.

Lemma run_grows (evs : list event) (now : str) (w : cli) :
  grows (load_knowledge w) (load_knowledge (run py_repr evs now w)).
Proof.
  unfold run. pose proof (run_loop_grows evs w) as Hg.
  destruct (conversation_history (run_loop py_repr evs w)); [exact Hg|].
  destruct (save_conversation now (run_loop py_repr evs w)) as [w'|e] eqn:Hs;
    [|exact Hg].
  apply save_conversation_grows in Hs as (_ & _ & _ & _ & Hs).
  eapply grows_trans; eassumption.
Qed.

End PipelineFacts.




(** ** Claims about the session *)

Lemma init_usage_one (env_key : option str) (config : file) :
  all_usage_one (load_knowledge (init env_key Absent config)) = true.
Proof. reflexivity. Qed.

(** C8.  Along every run of the command loop, from any state and for any
    input, the stored [conversations] only grow at the end (no record is
    edited or removed), no topic of [core_instructions] disappears, and
    usage counts that are all 1 stay all 1; they are all 1 from a first
    run on, since the store starts empty and every entry is written with
    [usage_count] 1. *)
Theorem store_only_grows (py_repr : pyval -> str) (evs : list event)
    (now : str) (w : cli) :
  let before := load_knowledge w in
  let during := load_knowledge (run_loop py_repr evs w) in
  let after := load_knowledge (run py_repr evs now w) in
  ((exists added,
       conversations_of during = conversations_of before ++ added) /\
   (exists added,
       conversations_of after = conversations_of before ++ added)) /\
  (forall topic,
      dict_mem topic (core_instructions_of before) = true ->
      dict_mem topic (core_instructions_of during) = true /\
      dict_mem topic (core_instructions_of after) = true) /\
  (all_usage_one before = true ->
   all_usage_one during = true /\ all_usage_one after = true) /\
  (forall env_key config,
      let first_run := init env_key Absent config in
      all_usage_one (load_knowledge (run_loop py_repr evs first_run)) = true /\
      all_usage_one (load_knowledge (run py_repr evs now first_run)) = true).
Proof.
  cbv zeta.
  destruct (run_loop_grows py_repr evs w) as (C1 & T1 & U1 & _).
  destruct (run_grows py_repr evs now w) as (C2 & T2 & U2 & _).
  split; [split; assumption|].
  split; [intros topic H; split; auto|].
  split; [intros H; split; auto|].
  intros env_key config. split.
  - apply (run_loop_grows py_repr evs (init env_key Absent config)).
    apply init_usage_one.
  - apply (run_grows py_repr evs now (init env_key Absent config)).
    apply init_usage_one.
Qed.

Section ContextFacts.

Variable py_repr : pyval -> str.

Lemma gather_context_rolling (query : str) (w : cli) :
  current_context w <> [] ->
  gather_context py_repr query w
  = Return (join nl (lastn 3 (current_context w))).
Proof.
  intros H. unfold gather_context.
  destruct (current_context w); [congruence | reflexivity].
Qed.

(** A turn that is a question with a string for an answer: the loop goes
    on, the rolling context has moved by the exchange, the client is the
    same. *)
Lemma answered_turn (ev : event) (query context r : str) (w : cli)
    (key : pyval) :
  strip (input ev) = query ->
  query <> [] ->
  startswith (lit "/") query = false ->
  deepseek w = Some key ->
  gather_context py_repr query w = Return context ->
  DeepSeekAPI_query (api ev (build_prompt context query)) = Return (PStr r) ->
  exists w',
    turn py_repr ev w = (w', Continue) /\
    current_context w' = exchange (current_context w) (query, r) /\
    deepseek w' = Some key.
Proof.
  intros Hi Hne Hslash Hk Hg Hq. unfold turn. rewrite Hi.
  destruct query as [|c query]; [congruence|].
  unfold process_command. rewrite Hslash.
  unfold handle_user_query. rewrite Hg, Hk. cbn [bind].
  unfold complete_turn. rewrite Hq, record_response_str.
  destruct (add_to_knowledge (now1 ev) (now2 ev) (c :: query) (PStr r)
              (noted (c :: query) r w)) as [w'|e] eqn:Ha; cbn [snd].
  - apply add_to_knowledge_grows in Ha as (_ & Hd & _ & Hc & _).
    exists w'. split; [reflexivity|]. split; [exact Hc|].
    rewrite Hd. exact Hk.
  - eexists. split; [reflexivity|]. split; [reflexivity | exact Hk].
Qed.

(** One of the sample questions, asked with a rolling context or on a
    store without entries. *)
Lemma asked (question : string) (w : cli) (key : pyval) :
  strip (lit question) = lit question ->
  lit question <> [] ->
  startswith (lit "/") (lit question) = false ->
  deepseek w = Some key ->
  current_context w <> [] \/
  gather_context py_repr (lit question) w = Return [] ->
  exists w',
    turn py_repr (ask question) w = (w', Continue) /\
    current_context w'
    = exchange (current_context w) (lit question, lit "ok") /\
    deepseek w' = Some key.
Proof.
  intros Hi Hne Hslash Hk [Hc | Hg].
  - apply (answered_turn (ask question) (lit question)
             (join nl (lastn 3 (current_context w))) (lit "ok") w key);
      try assumption; [|reflexivity].
    now apply gather_context_rolling.
  - apply (answered_turn (ask question) (lit question) [] (lit "ok") w key);
      try assumption. reflexivity.
Qed.

Lemma exchange_nonempty (ctx : list str) (qr : str * str) :
  exchange ctx qr <> [].
Proof.
  unfold exchange. intros H. apply app_eq_nil in H as [_ H]. discriminate.
Qed.

End ContextFacts.

(** C2, evaluated.  After four recorded exchanges the rolling context holds
    eight entries, the lines of all four exchanges; after a fifth it still
    holds eight, those of the last four.  The test of line 291 runs before
    the two appends and lets a list of six through. *)
Theorem context_holds_eight_entries :
  forall py_repr : pyval -> str,
    current_context (run_loop py_repr four_questions fresh)
    = [ lit "User: one..."; lit "Assistant: ok...";
        lit "User: two..."; lit "Assistant: ok...";
        lit "User: three..."; lit "Assistant: ok...";
        lit "User: four..."; lit "Assistant: ok..." ] /\
    length (current_context (run_loop py_repr four_questions fresh)) = 8 /\
    current_context (run_loop py_repr five_questions fresh)
    = [ lit "User: two..."; lit "Assistant: ok...";
        lit "User: three..."; lit "Assistant: ok...";
        lit "User: four..."; lit "Assistant: ok...";
        lit "User: five..."; lit "Assistant: ok..." ].
Proof.
  intros py_repr.
  destruct (asked py_repr "one" fresh (PStr (lit "sk-test")))
    as (w1 & T1 & C1 & K1);
    [reflexivity | discriminate | reflexivity | reflexivity
    | right; reflexivity |].
  assert (N1 : current_context w1 <> [])
    by (rewrite C1; apply exchange_nonempty).
  destruct (asked py_repr "two" w1 (PStr (lit "sk-test")))
    as (w2 & T2 & C2 & K2);
    [reflexivity | discriminate | reflexivity | exact K1 | now left |].
  assert (N2 : current_context w2 <> [])
    by (rewrite C2; apply exchange_nonempty).
  destruct (asked py_repr "three" w2 (PStr (lit "sk-test")))
    as (w3 & T3 & C3 & K3);
    [reflexivity | discriminate | reflexivity | exact K2 | now left |].
  assert (N3 : current_context w3 <> [])
    by (rewrite C3; apply exchange_nonempty).
  destruct (asked py_repr "four" w3 (PStr (lit "sk-test")))
    as (w4 & T4 & C4 & K4);
    [reflexivity | discriminate | reflexivity | exact K3 | now left |].
  assert (N4 : current_context w4 <> [])
    by (rewrite C4; apply exchange_nonempty).
  destruct (asked py_repr "five" w4 (PStr (lit "sk-test")))
    as (w5 & T5 & C5 & K5);
    [reflexivity | discriminate | reflexivity | exact K4 | now left |].
  assert (R4 : run_loop py_repr four_questions fresh = w4).
  { unfold four_questions. cbn [run_loop]. now rewrite T1, T2, T3, T4. }
  assert (R5 : run_loop py_repr five_questions fresh = w5).
  { unfold five_questions, four_questions. cbn [app run_loop].
    now rewrite T1, T2, T3, T4, T5. }
  rewrite R4, R5, C5, C4, C3, C2, C1.
  repeat split; vm_compute; reflexivity.
Qed.

(** ** Prompt assembly *)

Lemma build_prompt_context (context query : str) :
  context <> [] ->
  build_prompt context query
  = lit "Context from previous knowledge:" ++ nl ++ context ++ nl ++ nl
    ++ lit "Current query: " ++ query ++ nl ++ nl ++ please.
Proof. destruct context; [congruence | reflexivity]. Qed.

Lemma join_nonempty (sep : str) (parts : list str) :
  (exists x rest, parts = x :: rest /\ x <> []) -> join sep parts <> [].
Proof.
  intros (x & rest & -> & Hx). cbn [join]. destruct rest.
  - exact Hx.
  - intros H. apply app_eq_nil in H as [H _]. contradiction.
Qed.

Lemma forallb_firstn {A} (f : A -> bool) (n : nat) (l : list A) :
  forallb f l = true -> forallb f (firstn n l) = true.
Proof.
  revert n. induction l as [|a l IH]; intros [|n] H; cbn [firstn forallb];
    try reflexivity.
  cbn [forallb] in H. apply andb_true_iff in H as [H1 H2].
  now rewrite H1, IH.
Qed.

Lemma forallb_filter {A} (f g : A -> bool) (l : list A) :
  forallb f l = true -> forallb f (filter g l) = true.
Proof.
  induction l as [|a l IH]; intros H; cbn [filter]; [reflexivity|].
  cbn [forallb] in H. apply andb_true_iff in H as [H1 H2].
  destruct (g a); cbn [forallb]; [now rewrite H1, IH | now apply IH].
Qed.

Lemma searchable_entries (knowledge : pyval) :
  searchable knowledge = true ->
  forallb (fun kv => has_text (snd kv)) (core_instructions_of knowledge)
  = true.
Proof.
  unfold searchable, core_instructions_of.
  destruct knowledge as [| b | z | s | l | d]; try discriminate.
  destruct (dict_get k_core_instructions d) as [v|]; [|discriminate].
  destruct v; try discriminate. trivial.
Qed.

Section PromptFacts.

Variable py_repr : pyval -> str.

Lemma format_result_text (topic : str) (entry : pyval) :
  has_text entry = true ->
  format_result py_repr (search_result topic entry)
  = Return (shown (topic, entry)).
Proof.
  unfold has_text, shown, text_of, field, format_result. cbn [fst snd].
  change (py_getitem (search_result topic entry) k_topic)
    with (Return (PStr topic)).
  change (py_getitem (search_result topic entry) k_content)
    with (Return entry).
  cbn [bind]. intros H.
  destruct entry as [| b | z | s | l | d]; try discriminate.
  cbn [py_getitem].
  destruct (dict_get k_instructions d) as [v|]; [|discriminate].
  destruct v; try discriminate. reflexivity.
Qed.

Lemma map_outcome_format (l : dict) :
  forallb (fun kv => has_text (snd kv)) l = true ->
  map_outcome (format_result py_repr)
    (map (fun kv => search_result (fst kv) (snd kv)) l)
  = Return (map shown l).
Proof.
  induction l as [|[topic entry] l IH]; intros H; cbn [map map_outcome];
    [reflexivity|].
  cbn [forallb snd] in H. apply andb_true_iff in H as [H1 H2].
  cbn [fst snd]. rewrite (format_result_text _ _ H1). cbn [bind].
  rewrite (IH H2). reflexivity.
Qed.

(** The context of a turn that finds knowledge, and of one that finds
    none. *)
Lemma gather_context_search (query : str) (w : cli) :
  current_context w = [] ->
  searchable (load_knowledge w) = true ->
  gather_context py_repr query w
  = Return (join nl (map shown
              (firstn 2 (filter (hit query)
                           (core_instructions_of (load_knowledge w)))))).
Proof.
  intros Hc Hs. unfold gather_context. rewrite Hc.
  rewrite (search_knowledge_filter _ _ Hs). cbn [bind].
  pose proof (searchable_entries _ Hs) as He.
  destruct (filter (hit query) (core_instructions_of (load_knowledge w)))
    as [|kv found] eqn:Ef; [reflexivity|].
  cbn [map]. rewrite <- (map_cons (fun kv => search_result (fst kv) (snd kv))).
  rewrite firstn_map, map_outcome_format; [reflexivity|].
  apply forallb_firstn. rewrite <- Ef. now apply forallb_filter.
Qed.

(** C4.  With the client configured: when the rolling context is not empty
    the prompt is built from its last three entries (all of them when there
    are fewer), joined by line breaks, and the query, whatever the store
    file holds (the search is not run); when it is empty and the search
    finds entries, the prompt is built from the first two of them, each as
    its topic, ": " and the first 200 characters of its instructions, and
    the query; when the search finds nothing the prompt holds the query
    alone. *)
Theorem prompt_assembly (ev : event) (query : str) (w : cli) (key : pyval) :
  deepseek w = Some key ->
  let sends prompt :=
    handle_user_query py_repr ev query w
    = Return (complete_turn py_repr ev query w (api ev prompt)) in
  let with_context context :=
    lit "Context from previous knowledge:" ++ nl ++ context ++ nl ++ nl
    ++ lit "Current query: " ++ query ++ nl ++ nl ++ please in
  let alone := lit "Query: " ++ query ++ nl ++ nl ++ please in
  let uses context :=
    (context <> [] -> sends (with_context context)) /\
    (context = [] -> sends alone) /\
    (forall store,
        gather_context py_repr query (set_knowledge_file store w)
        = Return context) in
  let block (kv : str * pyval) :=
    fst kv ++ lit ": " ++ firstn 200 (text_of (snd kv)) in
  let matches (kv : str * pyval) :=
    contains (lower query) (lower (fst kv))
    || contains (lower query) (lower (text_of (snd kv))) in
  (forall older a b c,
      current_context w = older ++ [a; b; c] ->
      uses (a ++ nl ++ b ++ nl ++ c)) /\
  (forall a b, current_context w = [a; b] -> uses (a ++ nl ++ b)) /\
  (forall a, current_context w = [a] -> uses a) /\
  (current_context w = [] ->
   searchable (load_knowledge w) = true ->
   let found := filter matches (core_instructions_of (load_knowledge w)) in
   (forall first second rest,
       found = first :: second :: rest ->
       sends (with_context (block first ++ nl ++ block second))) /\
   (forall only, found = [only] -> sends (with_context (block only))) /\
   (found = [] -> sends alone)).
Proof.
  intros Hk. cbv zeta.
  assert (Hroll : forall context,
             current_context w <> [] ->
             join nl (lastn 3 (current_context w)) = context ->
             (context <> [] ->
              handle_user_query py_repr ev query w
              = Return (complete_turn py_repr ev query w
                          (api ev
                             (lit "Context from previous knowledge:" ++ nl
                              ++ context ++ nl ++ nl
                              ++ lit "Current query: " ++ query ++ nl ++ nl
                              ++ please)))) /\
             (context = [] ->
              handle_user_query py_repr ev query w
              = Return (complete_turn py_repr ev query w
                          (api ev (lit "Query: " ++ query ++ nl ++ nl
                                   ++ please)))) /\
             (forall store,
                 gather_context py_repr query (set_knowledge_file store w)
                 = Return context)).
  { intros context Hc <-.
    assert (Hg : forall store,
               gather_context py_repr query (set_knowledge_file store w)
               = Return (join nl (lastn 3 (current_context w)))).
    { intros store. unfold gather_context.
      cbn [set_knowledge_file current_context].
      destruct (current_context w); [congruence | reflexivity]. }
    assert (Hg0 : gather_context py_repr query w
                  = Return (join nl (lastn 3 (current_context w)))).
    { unfold gather_context.
      destruct (current_context w); [congruence | reflexivity]. }
    unfold handle_user_query. rewrite Hg0, Hk. cbn [bind].
    split; [|split; [|exact Hg]].
    - intros Hne. now rewrite build_prompt_context.
    - intros ->. reflexivity. }
  split; [|split; [|split]].
  - intros older a b c E. apply Hroll.
    + rewrite E. intros H. apply app_eq_nil in H as [_ H]. discriminate.
    + rewrite E, lastn_app by reflexivity. reflexivity.
  - intros a b E. apply Hroll; rewrite E; [discriminate | reflexivity].
  - intros a E. apply Hroll; rewrite E; [discriminate | reflexivity].
  - intros Hc Hs. unfold handle_user_query.
    rewrite (gather_context_search _ _ Hc Hs), Hk. cbn [bind].
    change (filter (hit query) (core_instructions_of (load_knowledge w)))
      with (filter
              (fun kv => contains (lower query) (lower (fst kv))
                         || contains (lower query)
                              (lower (text_of (snd kv))))
              (core_instructions_of (load_knowledge w))).
    split; [|split].
    + intros first second rest ->. cbn [firstn map join].
      unfold shown. rewrite build_prompt_context; [reflexivity|].
      intros H. apply app_eq_nil in H as [_ H].
      apply app_eq_nil in H as [H _]. discriminate.
    + intros only ->. cbn [firstn map join].
      unfold shown. rewrite build_prompt_context; [reflexivity|].
      intros H. apply app_eq_nil in H as [_ H].
      apply app_eq_nil in H as [H _]. discriminate.
    + intros ->. reflexivity.
Qed.

End PromptFacts.

(** ** Failures of the completion call *)

Lemma DeepSeekAPI_query_handled (http : http_result) (e : exn) (text : str) :
  query_body http = Raise e ->
  error_text e = Some text ->
  DeepSeekAPI_query http = Return (PStr text).
Proof.
  unfold DeepSeekAPI_query, error_text. intros -> H.
  destruct e; try discriminate; injection H as <-; reflexivity.
Qed.

Section FailureFacts.

Variable py_repr : pyval -> str.

(** C9 (amended).  When the completion call fails with an exception one of
    the two [except] clauses of the client names (a transport failure, a
    body that is not JSON, a missing key on the way to the content), the
    client returns the error text as an ordinary string, and the pipeline
    treats it as a response: both turns go to the history and the rolling
    context moves on; and when the stored document is well shaped,
    [add_to_knowledge] stores the text as a conversation record, and its
    marker lines become an entry of [core_instructions]. *)
Theorem handled_failure_is_recorded (ev : event) (query : str) (w : cli)
    (key : pyval) (context text : str) (e : exn) :
  deepseek w = Some key ->
  gather_context py_repr query w = Return context ->
  query_body (api ev (build_prompt context query)) = Raise e ->
  error_text e = Some text ->
  DeepSeekAPI_query (api ev (build_prompt context query))
  = Return (PStr text) /\
  exists a w',
    handle_user_query py_repr ev query w = Return (a, w') /\
    conversation_history w'
    = conversation_history w
      ++ [role_message "user" (PStr query);
          role_message "assistant" (PStr text)] /\
    current_context w'
    = trim_context (current_context w)
      ++ [user_line query;
          lit "Assistant: " ++ firstn 200 text ++ lit "..."] /\
    (well_shaped (load_knowledge w) = true ->
     a = Response (PStr text) /\
     add_to_knowledge (now1 ev) (now2 ev) query (PStr text)
       (noted query text w) = Return w' /\
     conversations_of (load_knowledge w')
     = conversations_of (load_knowledge w)
       ++ [conversation_record (now1 ev) query (PStr (firstn 1000 text))
             (current_context w')] /\
     (forall p ps,
         collect_core_points (split_lines text) [] = p :: ps ->
         dict_get (topic_of query) (core_instructions_of (load_knowledge w'))
         = Some (instruction_entry (now2 ev) (p :: ps)
                   (Z.of_nat (length (conversations_of
                                        (load_knowledge w))))))).
Proof.
  intros Hk Hg Hb He.
  pose proof (DeepSeekAPI_query_handled _ _ _ Hb He) as Hq.
  split; [exact Hq|].
  unfold handle_user_query. rewrite Hg, Hk. cbn [bind].
  unfold complete_turn. rewrite Hq, record_response_str.
  destruct (add_to_knowledge (now1 ev) (now2 ev) query (PStr text)
              (noted query text w)) as [w'|e'] eqn:Ha.
  - exists (Response (PStr text)), w'. split; [reflexivity|].
    pose proof Ha as Hi.
    apply add_to_knowledge_grows in Hi as (_ & _ & Hh & Hc & _).
    split; [exact Hh|]. split; [exact Hc|].
    intros _. split; [reflexivity|]. split; [reflexivity|].
    apply add_to_knowledge_inv in Ha
      as (d & d' & answer & lines & Hd & -> & Hs & Hl & Hconv & _ & Hcore).
    cbn [py_slice py_split] in Hs, Hl.
    injection Hs as <-. injection Hl as <-.
    change (load_knowledge (noted query text w)) with (load_knowledge w)
      in Hd.
    rewrite load_save, Hd. split; [exact Hconv|].
    intros p ps Hp. rewrite Hp in Hcore. destruct Hcore as (ci & _ & Hci').
    rewrite (core_instructions_of_lookup _ _ Hci').
    apply dict_get_set_same.
  - exists (ApiError e'), (noted query text w). split; [reflexivity|].
    split; [reflexivity|]. split; [reflexivity|].
    intros Hw.
    destruct (add_to_knowledge_total (now1 ev) (now2 ev) query text
                (noted query text w) Hw) as [w' Hw'].
    congruence.
Qed.

End FailureFacts.

(* ================================================================== *)
(** * Further properties of the code *)
(* ================================================================== *)

(** ** Topic keys (line 127) *)

Lemma topic_of_length (query : str) :
  length (topic_of query)
  = if 50 <? length query then 53 else length query.
Proof.
  rewrite topic_of_cases. destruct (50 <? length query) eqn:E;
    [|reflexivity].
  apply Nat.ltb_lt in E. rewrite length_app, length_firstn.
  change (length (lit "...")) with 3. lia.
Qed.

(** X1.  A topic key has at most 53 characters, a query of at most 50
    characters is its own key, and such a query shares its key with no
    other query. *)
Theorem topic_of_short_injective (q1 q2 : str) :
  length (topic_of q1) <= 53 /\
  (length q1 <= 50 -> topic_of q1 = q1) /\
  (length q1 <= 50 -> topic_of q1 = topic_of q2 -> q1 = q2).
Proof.
  split; [|split].
  - rewrite topic_of_length. destruct (50 <? length q1) eqn:E; [lia|].
    apply Nat.ltb_ge in E. lia.
  - intros H. rewrite topic_of_cases.
    destruct (50 <? length q1) eqn:E; [apply Nat.ltb_lt in E; lia|].
    reflexivity.
  - intros H Heq. pose proof (f_equal (@length N) Heq) as Hl.
    rewrite !topic_of_length in Hl. rewrite !topic_of_cases in Heq.
    destruct (50 <? length q1) eqn:E1; [apply Nat.ltb_lt in E1; lia|].
    destruct (50 <? length q2) eqn:E2; [lia | exact Heq].
Qed.

Lemma topic_of_long_collide (q1 q2 : str) :
  50 < length q1 -> 50 < length q2 ->
  (firstn 50 q1 = firstn 50 q2 <-> topic_of q1 = topic_of q2).
Proof.
  intros H1 H2. rewrite !topic_of_cases.
  apply Nat.ltb_lt in H1, H2. rewrite H1, H2. split.
  - intros ->. reflexivity.
  - intros H. now apply app_inv_tail in H.
Qed.

(** ** What a call of [add_to_knowledge] leaves in the store *)

(** The store after a call on a well-shaped document, for a response that
    is a string. *)
Lemma add_to_knowledge_effect (t1 t2 query response : str) (w : cli) :
  well_shaped (load_knowledge w) = true ->
  exists w',
    add_to_knowledge t1 t2 query (PStr response) w = Return w' /\
    well_shaped (load_knowledge w') = true /\
    conversations_of (load_knowledge w')
    = conversations_of (load_knowledge w)
      ++ [conversation_record t1 query (PStr (firstn 1000 response))
            (current_context w)] /\
    core_instructions_of (load_knowledge w')
    = match collect_core_points (split_lines response) [] with
      | [] => core_instructions_of (load_knowledge w)
      | (_ :: _) as core_points =>
          dict_set (topic_of query)
            (instruction_entry t2 core_points
               (Z.of_nat (length (conversations_of (load_knowledge w)))))
            (core_instructions_of (load_knowledge w))
      end.
Proof.
  intros Hw.
  destruct (add_to_knowledge_total t1 t2 query response w Hw) as [w' Hadd].
  exists w'. split; [exact Hadd|].
  pose proof (add_to_knowledge_grows _ _ _ _ _ _ Hadd)
    as (_ & _ & _ & _ & (_ & _ & _ & Hshape & _)).
  split; [auto|].
  apply add_to_knowledge_inv in Hadd
    as (d & d' & answer & lines & Hd & -> & Hs & Hl & Hconv & _ & Hcore).
  cbn [py_slice py_split] in Hs, Hl.
  injection Hs as <-. injection Hl as <-.
  rewrite load_save, Hd. split; [exact Hconv|].
  destruct (collect_core_points (split_lines response) []) as [|p ps].
  - unfold core_instructions_of. now rewrite Hcore.
  - destruct Hcore as (ci & Hci & Hci').
    rewrite (core_instructions_of_lookup _ _ Hci).
    now rewrite (core_instructions_of_lookup _ _ Hci').
Qed.


(** ** The collected core points (lines 115-130) *)

Lemma lstrip_head (s : str) :
  lstrip s = [] \/
  exists c rest, lstrip s = c :: rest /\ is_space c = false.
Proof.
  induction s as [|c s IH]; cbn [lstrip]; [now left|].
  destruct (is_space c) eqn:E; [exact IH|].
  right. eauto.
Qed.

Lemma lstrip_snoc (a : str) (c : N) :
  is_space c = false -> lstrip (a ++ [c]) = lstrip a ++ [c].
Proof.
  intros Hc. induction a as [|x a IH]; cbn [lstrip app].
  - now rewrite Hc.
  - destruct (is_space x); [exact IH | reflexivity].
Qed.

Lemma lstrip_In (x : N) (s : str) : In x (lstrip s) -> In x s.
Proof.
  induction s as [|c s IH]; cbn [lstrip]; [trivial|].
  destruct (is_space c); [intros H; right; auto | trivial].
Qed.

Lemma lstrip_nil_spaces (s : str) :
  lstrip s = [] -> forallb is_space s = true.
Proof.
  induction s as [|c s IH]; cbn [lstrip forallb]; [reflexivity|].
  destruct (is_space c); [exact IH | discriminate].
Qed.

Lemma strip_In (x : N) (s : str) : In x (strip s) -> In x s.
Proof.
  unfold strip, rstrip. intros H.
  apply in_rev, lstrip_In in H. apply in_rev in H. now apply lstrip_In.
Qed.

(** [strip] by cases on what [lstrip] leaves. *)
Lemma strip_cases (s : str) :
  (lstrip s = [] /\ strip s = []) \/
  exists c rest,
    lstrip s = c :: rest /\ is_space c = false /\
    strip s = c :: rev (lstrip (rev rest)).
Proof.
  unfold strip, rstrip.
  destruct (lstrip_head s) as [E | (c & rest & E & Hc)]; rewrite E.
  - left. split; reflexivity.
  - right. exists c, rest. split; [reflexivity|]. split; [exact Hc|].
    cbn [rev]. rewrite (lstrip_snoc _ _ Hc), rev_app_distr. reflexivity.
Qed.

Lemma strip_last (s front : str) (c : N) :
  strip s = front ++ [c] -> is_space c = false.
Proof.
  unfold strip, rstrip. intros H.
  apply (f_equal (@rev N)) in H. rewrite rev_involutive, rev_app_distr in H.
  cbn [rev app] in H.
  destruct (lstrip_head (rev (lstrip s))) as [E | (d & rest & E & Hd)];
    rewrite E in H; [discriminate|].
  injection H as -> _. exact Hd.
Qed.

Lemma space_not_lowered (c : N) :
  is_space c = true -> ascii_lower_char c = c.
Proof.
  unfold ascii_lower_char.
  destruct ((65 <=? c) && (c <=? 90))%N eqn:E; [|reflexivity].
  apply andb_true_iff in E as [E1 E2].
  apply N.leb_le in E1, E2. unfold is_space.
  repeat rewrite orb_true_iff. repeat rewrite andb_true_iff.
  repeat rewrite N.leb_le. repeat rewrite N.eqb_eq. lia.
Qed.

Lemma spaces_ascii_lower (s : str) :
  forallb is_space s = true -> ascii_lower s = s.
Proof.
  induction s as [|c s IH]; cbn [forallb ascii_lower map]; [reflexivity|].
  intros H. apply andb_true_iff in H as [H1 H2].
  rewrite (space_not_lowered _ H1). f_equal. now apply IH.
Qed.

Lemma contains_head (a : N) (needle hay : str) :
  contains (a :: needle) hay = true -> In a hay.
Proof.
  intros H. apply contains_spec in H as (pre & post & ->).
  apply in_or_app. right. now left.
Qed.

(** A line of whitespace that [lower] leaves alone is no core point. *)
Lemma spaces_no_core_point (line : str) :
  forallb is_space line = true ->
  lower line = line ->
  is_core_point line = false.
Proof.
  intros Hs Hlow. unfold is_core_point.
  assert (Hstrip : strip line = []).
  { destruct (strip_cases line) as [[_ E] | (c & rest & E & Hc & _)];
      [exact E|].
    assert (Hin : In c line) by (apply lstrip_In; rewrite E; now left).
    rewrite forallb_forall in Hs. rewrite (Hs _ Hin) in Hc. discriminate. }
  rewrite Hstrip, Hlow.
  assert (Hno : forall a needle,
             is_space a = false -> contains (a :: needle) line = false).
  { intros a needle Ha. destruct (contains (a :: needle) line) eqn:E;
      [|reflexivity].
    apply contains_head in E. rewrite forallb_forall in Hs.
    rewrite (Hs _ E) in Ha. discriminate. }
  change (lit "key point") with (107%N :: lit "ey point").
  change (lit "important:") with (105%N :: lit "mportant:").
  rewrite !Hno by reflexivity. reflexivity.
Qed.

Lemma core_point_strip_nonempty (line : str) :
  (forallb is_space line = true -> lower line = line) ->
  is_core_point line = true -> strip line <> [].
Proof.
  intros Hlow H Hnil.
  destruct (strip_cases line) as [[E _] | (c & rest & _ & _ & E)].
  - apply lstrip_nil_spaces in E.
    rewrite (spaces_no_core_point line E (Hlow E)) in H. discriminate.
  - congruence.
Qed.

Lemma split_lines_chars (s line : str) (c : N) :
  In line (split_lines s) -> In c line -> In c s.
Proof.
  revert line. induction s as [|x s IH]; intros line; cbn [split_lines].
  - intros [<- | []] [].
  - destruct (x =? 10)%N.
    + intros [<- | Hl] Hc; [destruct Hc|]. right. eauto.
    + destruct (split_lines s) as [|l ls].
      * intros [<- | []] [<- | []]. now left.
      * intros [<- | Hl] Hc.
        -- destruct Hc as [<- | Hc]; [now left|].
           right. apply (IH l); [now left | exact Hc].
        -- right. apply (IH line); [now right | exact Hc].
Qed.

Lemma split_lines_ascii (s line : str) :
  is_ascii s = true -> In line (split_lines s) -> is_ascii line = true.
Proof.
  unfold is_ascii. rewrite !forallb_forall. intros H Hl c Hc.
  apply H. eapply split_lines_chars; eassumption.
Qed.

Lemma split_lines_no_newline (s : str) :
  Forall (fun line => ~ In 10%N line) (split_lines s).
Proof.
  induction s as [|c s IH]; cbn [split_lines].
  - constructor; [intros []|constructor].
  - destruct (c =? 10)%N eqn:E.
    + constructor; [intros []|exact IH].
    + apply N.eqb_neq in E.
      destruct (split_lines s) as [|l ls].
      * constructor; [|constructor]. intros [H|[]]. congruence.
      * inversion IH as [|? ? Hl Hls]; subst. constructor; [|exact Hls].
        intros [Hc|Hc]; [congruence | contradiction].
Qed.

Lemma split_lines_single (x : str) :
  ~ In 10%N x -> split_lines x = [x].
Proof.
  induction x as [|c x IH]; intros H; cbn [split_lines]; [reflexivity|].
  destruct (c =? 10)%N eqn:E.
  - apply N.eqb_eq in E. subst. destruct H. now left.
  - rewrite IH; [reflexivity|]. intros Hx. apply H. now right.
Qed.

Lemma split_lines_app (x rest : str) :
  ~ In 10%N x -> split_lines (x ++ nl ++ rest) = x :: split_lines rest.
Proof.
  induction x as [|c x IH]; intros H; cbn [split_lines app nl].
  - reflexivity.
  - destruct (c =? 10)%N eqn:E.
    + apply N.eqb_eq in E. subst. destruct H. now left.
    + cbn [nl app] in IH. rewrite IH; [reflexivity|].
      intros Hx. apply H. now right.
Qed.

(** Splitting what [join] glued gives the parts back. *)
Lemma split_join (parts : list str) :
  parts <> [] ->
  Forall (fun line => ~ In 10%N line) parts ->
  split_lines (join nl parts) = parts.
Proof.
  induction parts as [|x parts IH]; intros Hne Hall; [congruence|].
  inversion Hall as [|? ? Hx Hrest]; subst.
  destruct parts as [|y parts].
  - cbn [join]. now apply split_lines_single.
  - rewrite join_cons2, split_lines_app by exact Hx.
    rewrite IH; [reflexivity | discriminate | exact Hrest].
Qed.

Lemma In_firstn {A} (n : nat) (x : A) (l : list A) :
  In x (firstn n l) -> In x l.
Proof.
  revert n. induction l as [|a l IH]; intros [|n]; cbn [firstn In];
    try tauto.
  intros [H|H]; [now left | right; eauto].
Qed.

(** X3.  The core points the loop collects are at most three; each is a
    matching line of the response, stripped; none starts or ends with
    whitespace or holds a line break; none is empty when the response is
    ASCII text, and none at all when [lower] leaves whitespace alone; and
    the [instructions] text they are joined into splits on line breaks into
    exactly these points. *)
Theorem core_points_are_clean (response : str) :
  let points := collect_core_points (split_lines response) [] in
  length points <= 3 /\
  (forall p, In p points ->
             exists line, In line (split_lines response) /\
                          is_core_point line = true /\ p = strip line) /\
  Forall clean_point points /\
  (is_ascii response = true -> forall p, In p points -> p <> []) /\
  ((forall s, forallb is_space s = true -> lower s = s) ->
   forall p, In p points -> p <> []) /\
  (points <> [] -> split_lines (join nl points) = points).
Proof.
  cbv zeta. rewrite collect_core_points_spec.
  assert (Hfrom : forall p,
             In p (map strip
                     (firstn 3 (filter is_core_point
                                  (split_lines response)))) ->
             exists line, In line (split_lines response) /\
                          is_core_point line = true /\ p = strip line).
  { intros p Hp. apply in_map_iff in Hp as (line & <- & Hl).
    apply In_firstn, filter_In in Hl as [Hl Hm]. eauto. }
  assert (Hclean : Forall clean_point
             (map strip (firstn 3 (filter is_core_point
                                     (split_lines response))))).
  { apply Forall_forall. intros p Hp.
    destruct (Hfrom p Hp) as (line & Hl & Hm & ->).
    split; [|split].
    - intros c rest E.
      destruct (strip_cases line) as [[_ E'] | (c' & rest' & _ & Hc & E')];
        rewrite E' in E; [discriminate|].
      injection E as <- _. exact Hc.
    - intros c front E. eapply strip_last; eassumption.
    - intros Hin. apply strip_In in Hin.
      pose proof (split_lines_no_newline response) as Hall.
      rewrite Forall_forall in Hall. exact (Hall _ Hl Hin). }
  split; [rewrite length_map; apply firstn_length_le|].
  split; [exact Hfrom|]. split; [exact Hclean|].
  split; [|split].
  - intros Ha p Hp. destruct (Hfrom p Hp) as (line & Hl & Hm & ->).
    apply core_point_strip_nonempty; [|exact Hm].
    intros Hs. rewrite lower_ascii by (eapply split_lines_ascii; eassumption).
    now apply spaces_ascii_lower.
  - intros Hlow p Hp. destruct (Hfrom p Hp) as (line & Hl & Hm & ->).
    apply core_point_strip_nonempty; [|exact Hm]. apply Hlow.
  - intros Hne. apply split_join; [exact Hne|].
    eapply Forall_impl; [|exact Hclean]. intros p (_ & _ & H). exact H.
Qed.

(** ** What one pass of the loop can do *)

Lemma dialogue_app (a b : list (str * pyval)) :
  dialogue (a ++ b) = dialogue a ++ dialogue b.
Proof. unfold dialogue. apply flat_map_app. Qed.

Lemma save_conversation_steps (now : str) (w w' : cli) :
  save_conversation now w = Return w' ->
  store_step w w' /\ session_step w w'.
Proof.
  intros H. split; [now apply (store_saved w w' now)|].
  apply save_conversation_grows in H as (_ & _ & Hh & Hc & _).
  now apply session_kept.
Qed.

Lemma handle_slash_command_steps (ev : event) (command : str)
    (w w' : cli) (c : control) :
  handle_slash_command ev command w = Return (w', c) ->
  store_step w w' /\ session_step w w'.
Proof.
  assert (Hsame : store_step w w /\ session_step w w).
  { split; [now apply store_kept | now apply session_kept]. }
  unfold handle_slash_command.
  destruct (split_ws command []) as [|first args]; [discriminate|].
  repeat match goal with
  | |- context [if ?b then _ else _] => destruct b
  end;
  try (intros H; injection H as <- _; exact Hsame).
  - intros H. injection H as <- _.
    split; [now apply store_kept | now apply session_cleared].
  - destruct (search_command args w); [|discriminate].
    cbn [bind]. intros H; injection H as <- _; exact Hsame.
  - destruct (list_command w); [|discriminate].
    cbn [bind]. intros H; injection H as <- _; exact Hsame.
  - destruct (save_conversation (now1 ev) w) as [w1|e] eqn:Hs;
      [|discriminate].
    cbn [bind]. intros H; injection H as <- _.
    now apply save_conversation_steps in Hs.
  - destruct args; intros H; injection H as <- _; [exact Hsame|].
    split; [now apply store_kept | now apply session_kept].
Qed.

Section StepFacts.

Variable py_repr : pyval -> str.

Lemma record_response_steps (t1 t2 query : str) (response : pyval)
    (w : cli) :
  store_step w (fst (record_response py_repr t1 t2 query response w)) /\
  session_step w (fst (record_response py_repr t1 t2 query response w)).
Proof.
  unfold record_response.
  cbn [current_context conversation_history set_context set_history
       knowledge_file config_file deepseek].
  destruct (py_slice response 200) as [cut|e]; cbn [fst].
  - match goal with
    | |- context [add_to_knowledge ?a ?b ?c ?d ?x] =>
        destruct (add_to_knowledge a b c d x) as [w'|e] eqn:Ha
    end; cbn [fst].
    + split.
      * eapply store_added; [|exact Ha]. reflexivity.
      * apply add_to_knowledge_grows in Ha as (_ & _ & Hh & Hc & _).
        cbn [current_context conversation_history set_context set_history]
          in Hh, Hc.
        apply (session_recorded w w' query response
                 [assistant_line py_repr cut]).
        -- exact Hh.
        -- rewrite Hc, <- app_assoc. reflexivity.
        -- right. eexists. split; reflexivity.
    + split; [now apply store_kept|].
      apply (session_recorded _ _ query response
               [assistant_line py_repr cut]).
      * reflexivity.
      * cbn [current_context set_context]. rewrite <- app_assoc.
        reflexivity.
      * right. eexists. split; reflexivity.
  - split; [now apply store_kept|].
    apply (session_recorded _ _ query response []).
    + reflexivity.
    + reflexivity.
    + now left.
Qed.

Lemma handle_user_query_steps (ev : event) (query : str) (w w' : cli)
    (a : answer) :
  handle_user_query py_repr ev query w = Return (a, w') ->
  store_step w w' /\ session_step w w'.
Proof.
  assert (Hsame : store_step w w /\ session_step w w).
  { split; [now apply store_kept | now apply session_kept]. }
  unfold handle_user_query.
  destruct (gather_context py_repr query w) as [context|e]; [|discriminate].
  cbn [bind]. destruct (deepseek w).
  - unfold complete_turn.
    destruct (DeepSeekAPI_query (api ev (build_prompt context query)))
      as [response|e].
    + pose proof (record_response_steps (now1 ev) (now2 ev) query
                    response w) as Hr.
      destruct (record_response py_repr (now1 ev) (now2 ev) query
                  response w) as [w1 [r|e]];
        cbn [fst] in Hr; intros H; injection H as _ <-; exact Hr.
    + intros H. injection H as _ <-. exact Hsame.
  - intros H. injection H as _ <-. exact Hsame.
Qed.

Lemma turn_steps (ev : event) (w : cli) :
  store_step w (fst (turn py_repr ev w)) /\
  session_step w (fst (turn py_repr ev w)).
Proof.
  assert (Hsame : store_step w w /\ session_step w w).
  { split; [now apply store_kept | now apply session_kept]. }
  unfold turn. destruct (strip (input ev)) as [|c user_input];
    [exact Hsame|].
  destruct (process_command py_repr ev (c :: user_input) w)
    as [[w' ctl]|e] eqn:Hp; [|exact Hsame].
  cbn [fst]. unfold process_command in Hp.
  destruct (startswith (lit "/") (c :: user_input)).
  - now apply handle_slash_command_steps in Hp.
  - destruct (handle_user_query py_repr ev (c :: user_input) w)
      as [[a w1]|e] eqn:Hq; [|discriminate].
    cbn [bind snd] in Hp. injection Hp as <- _.
    now apply handle_user_query_steps in Hq.
Qed.

(** A property of the state that every pass keeps holds along the loop. *)
Lemma run_loop_invariant (I : cli -> Prop) :
  (forall ev w, I w -> I (fst (turn py_repr ev w))) ->
  forall evs w, I w -> I (run_loop py_repr evs w).
Proof.
  intros Hstep evs. induction evs as [|ev rest IH]; intros w Hw;
    cbn [run_loop]; [exact Hw|].
  pose proof (Hstep ev w Hw) as H1.
  destruct (turn py_repr ev w) as [w' [|]]; cbn [fst] in H1; auto.
Qed.

End StepFacts.

(** ** Invariants of the session *)

Lemma forallb_skipn {A} (f : A -> bool) (n : nat) (l : list A) :
  forallb f l = true -> forallb f (skipn n l) = true.
Proof.
  revert n. induction l as [|a l IH]; intros [|n] H; cbn [skipn];
    try assumption.
  cbn [forallb] in H. apply andb_true_iff in H as [_ H]. now apply IH.
Qed.

Lemma trim_context_lines (ctx : list str) :
  forallb context_line ctx = true ->
  forallb context_line (trim_context ctx) = true.
Proof.
  intros H. unfold trim_context, lastn.
  destruct (6 <? length ctx); [now apply forallb_skipn | exact H].
Qed.

Lemma session_step_length (w w' : cli) :
  session_step w w' ->
  length (current_context w) <= 8 -> length (current_context w') <= 8.
Proof.
  intros [Hh Hc | Hh Hc | query response tail Hh Hc Ht] Hl.
  - now rewrite Hc.
  - rewrite Hc. cbn [length]. lia.
  - rewrite Hc, length_app, trim_context_length. cbn [length].
    destruct Ht as [-> | (line & -> & _)]; cbn [length]; lia.
Qed.

Lemma session_step_lines (w w' : cli) :
  session_step w w' ->
  forallb context_line (current_context w) = true ->
  forallb context_line (current_context w') = true.
Proof.
  intros [Hh Hc | Hh Hc | query response tail Hh Hc Ht] Hl.
  - now rewrite Hc.
  - now rewrite Hc.
  - rewrite Hc, forallb_app, (trim_context_lines _ Hl). cbn [forallb andb].
    destruct Ht as [-> | (line & -> & Hline)]; cbn [forallb].
    + reflexivity.
    + unfold context_line at 2. rewrite Hline, orb_true_r. reflexivity.
Qed.

Lemma session_step_dialogue (w w' : cli) :
  session_step w w' ->
  (exists pairs, conversation_history w = dialogue pairs) ->
  exists pairs, conversation_history w' = dialogue pairs.
Proof.
  intros [Hh Hc | Hh Hc | query response tail Hh Hc Ht] [pairs Hp].
  - exists pairs. now rewrite Hh.
  - exists []. now rewrite Hh.
  - exists (pairs ++ [(query, response)]).
    now rewrite Hh, Hp, dialogue_app.
Qed.

Lemma run_session (py_repr : pyval -> str) (evs : list event) (now : str)
    (w : cli) :
  conversation_history (run py_repr evs now w)
  = conversation_history (run_loop py_repr evs w) /\
  current_context (run py_repr evs now w)
  = current_context (run_loop py_repr evs w).
Proof.
  unfold run.
  destruct (conversation_history (run_loop py_repr evs w)) eqn:Eh;
    [now rewrite Eh|].
  destruct (save_conversation now (run_loop py_repr evs w)) as [w'|e] eqn:Hs;
    [|now rewrite Eh].
  apply save_conversation_grows in Hs as (_ & _ & Hh & Hc & _).
  now rewrite Hh, Hc, Eh.
Qed.

(** X4.  Along every run the rolling context holds at most eight entries,
    from any state in which it holds at most eight, the first start among
    them. *)
Theorem context_never_exceeds_eight (py_repr : pyval -> str)
    (evs : list event) (now : str) (w : cli) :
  length (current_context w) <= 8 ->
  length (current_context (run_loop py_repr evs w)) <= 8 /\
  length (current_context (run py_repr evs now w)) <= 8.
Proof.
  intros H.
  assert (Hl : length (current_context (run_loop py_repr evs w)) <= 8).
  { apply (run_loop_invariant py_repr
             (fun w => length (current_context w) <= 8)); [|exact H].
    intros ev w0 H0. eapply session_step_length; [|exact H0].
    apply turn_steps. }
  split; [exact Hl|].
  now rewrite (proj2 (run_session py_repr evs now w)).
Qed.

Lemma context_line_nonempty (s : str) : context_line s = true -> s <> [].
Proof. intros H ->. discriminate. Qed.

(** X5.  Along every run each entry of the rolling context starts with
    "User: " or "Assistant: "; so whenever the context is not empty the
    block built from its last three entries is not empty, and the prompt
    of the next query is the one with the context heading. *)
Theorem context_lines_are_labelled (py_repr : pyval -> str)
    (evs : list event) (w : cli) :
  forallb context_line (current_context w) = true ->
  let w' := run_loop py_repr evs w in
  forallb context_line (current_context w') = true /\
  (current_context w' <> [] ->
   forall query,
     build_prompt (join nl (lastn 3 (current_context w'))) query
     = lit "Context from previous knowledge:" ++ nl
       ++ join nl (lastn 3 (current_context w')) ++ nl ++ nl
       ++ lit "Current query: " ++ query ++ nl ++ nl ++ please).
Proof.
  intros H. cbv zeta.
  assert (Hl : forallb context_line
                 (current_context (run_loop py_repr evs w)) = true).
  { apply (run_loop_invariant py_repr
             (fun w => forallb context_line (current_context w) = true));
      [|exact H].
    intros ev w0 H0. eapply session_step_lines; [|exact H0].
    apply turn_steps. }
  split; [exact Hl|].
  intros Hne query. apply build_prompt_context, join_nonempty.
  set (ctx := current_context (run_loop py_repr evs w)) in *.
  assert (Hlast : forallb context_line (lastn 3 ctx) = true)
    by now apply forallb_skipn.
  destruct (lastn 3 ctx) as [|x rest] eqn:E.
  - exfalso. pose proof (lastn_length 3 ctx) as Hlen.
    rewrite E in Hlen. cbn [length] in Hlen.
    destruct ctx; [congruence | cbn [length] in Hlen; lia].
  - exists x, rest. split; [reflexivity|].
    cbn [forallb] in Hlast. apply andb_true_iff in Hlast as [Hx _].
    now apply context_line_nonempty.
Qed.

(** A command keeps the history or empties it. *)
Lemma handle_slash_command_history (ev : event) (command : str)
    (w w' : cli) (c : control) :
  handle_slash_command ev command w = Return (w', c) ->
  conversation_history w' = conversation_history w \/
  conversation_history w' = [].
Proof.
  unfold handle_slash_command.
  destruct (split_ws command []) as [|first args]; [discriminate|].
  repeat match goal with
  | |- context [if ?b then _ else _] => destruct b eqn:?
  end;
  try (intros H; injection H as <- _; auto).
  - destruct (search_command args w); [|discriminate].
    cbn [bind]. intros H; injection H as <- _; now left.
  - destruct (list_command w); [|discriminate].
    cbn [bind]. intros H; injection H as <- _; now left.
  - destruct (save_conversation (now1 ev) w) as [w1|e] eqn:Hs;
      [|discriminate].
    cbn [bind]. intros H; injection H as <- _.
    apply save_conversation_grows in Hs as (_ & _ & Hh & _).
    left. congruence.
  - destruct args; intros H; injection H as <- _; now left.
Qed.

(** X6.  Along every run the history is a sequence of complete exchanges,
    a user message followed by an assistant message, from any state in
    which it is one; a slash command keeps the history as it is or empties
    it, and [/clear] empties it. *)
Theorem history_is_a_dialogue (py_repr : pyval -> str)
    (evs : list event) (now : str) (w : cli) :
  (exists pairs, conversation_history w = dialogue pairs) ->
  (exists pairs,
      conversation_history (run_loop py_repr evs w) = dialogue pairs /\
      length (conversation_history (run_loop py_repr evs w))
      = 2 * length pairs) /\
  conversation_history (run py_repr evs now w)
  = conversation_history (run_loop py_repr evs w) /\
  (forall ev command w0 w1 c,
      handle_slash_command ev command w0 = Return (w1, c) ->
      conversation_history w1 = conversation_history w0 \/
      conversation_history w1 = []) /\
  (forall ev w0,
      handle_slash_command ev (lit "clear") w0
      = Return (set_context [] (set_history [] w0), Continue) /\
      conversation_history (set_context [] (set_history [] w0)) = []).
Proof.
  intros H. split; [|split; [apply run_session|]].
  - assert (Hd : exists pairs,
               conversation_history (run_loop py_repr evs w)
               = dialogue pairs).
    { apply (run_loop_invariant py_repr
               (fun w => exists pairs,
                           conversation_history w = dialogue pairs));
        [|exact H].
      intros ev w0 H0. eapply session_step_dialogue; [|exact H0].
      apply turn_steps. }
    destruct Hd as [pairs Hp]. exists pairs. split; [exact Hp|].
    rewrite Hp. clear. induction pairs as [|p pairs IH]; [reflexivity|].
    cbn [dialogue flat_map length app] in *. unfold dialogue in IH.
    rewrite IH. lia.
  - split; [intros ev command w0 w1 c;
            apply handle_slash_command_history|].
    intros ev w0. split; [|reflexivity].
    unfold handle_slash_command.
    change (split_ws (lit "clear") []) with [lit "clear"].
    cbv beta iota zeta. rewrite (lower_ascii (lit "clear")) by reflexivity.
    reflexivity.
Qed.

(** ** Source indices *)

Lemma topic_of_firstn (query : str) :
  topic_of (firstn 500 query) = topic_of query.
Proof.
  unfold topic_of. rewrite firstn_firstn, length_firstn.
  change (Nat.min 50 500) with 50.
  destruct (50 <? length query) eqn:E.
  - apply Nat.ltb_lt in E.
    replace (50 <? Nat.min 500 (length query)) with true; [reflexivity|].
    symmetry. apply Nat.ltb_lt. lia.
  - apply Nat.ltb_ge in E.
    replace (50 <? Nat.min 500 (length query)) with false; [reflexivity|].
    symmetry. apply Nat.ltb_ge. lia.
Qed.

Lemma points_at_app (convs more : list pyval) (topic : str)
    (entry : pyval) :
  points_at convs topic entry = true ->
  points_at (convs ++ more) topic entry = true.
Proof.
  unfold points_at.
  destruct (field k_source_conversation entry) as [v|]; [|discriminate].
  destruct v as [| b | i | s | l | d]; try discriminate.
  destruct (0 <=? i)%Z; [|discriminate]. cbn [andb].
  destruct (nth_error convs (Z.to_nat i)) as [record|] eqn:E;
    [|discriminate].
  rewrite nth_error_app1 by (apply nth_error_Some; congruence).
  now rewrite E.
Qed.

Lemma points_at_new (convs : list pyval) (t1 t2 query : str)
    (answer : pyval) (context points : list str) :
  points_at (convs ++ [conversation_record t1 query answer context])
    (topic_of query)
    (instruction_entry t2 points (Z.of_nat (length convs))) = true.
Proof.
  unfold points_at.
  change (field k_source_conversation
            (instruction_entry t2 points (Z.of_nat (length convs))))
    with (Some (PInt (Z.of_nat (length convs)))).
  cbv beta iota.
  rewrite Nat2Z.id, nth_error_app2, Nat.sub_diag by lia. cbn [nth_error].
  change (field k_query (conversation_record t1 query answer context))
    with (Some (PStr (firstn 500 query))).
  cbv beta iota.
  rewrite topic_of_firstn, str_eqb_refl, andb_true_r.
  apply Z.leb_le. lia.
Qed.

Lemma forallb_dict_set_pair (f : str * pyval -> bool) (k : str) (v : pyval)
    (d : dict) :
  forallb f d = true -> f (k, v) = true ->
  forallb f (dict_set k v d) = true.
Proof.
  intros Hd Hv. induction d as [|[k' v'] d IH]; cbn [dict_set forallb].
  - now rewrite Hv.
  - cbn [forallb] in Hd. apply andb_true_iff in Hd as [H1 H2].
    destruct (str_eqb k' k); cbn [forallb].
    + now rewrite Hv, H2.
    + now rewrite H1, IH.
Qed.

Lemma forallb_points_at_app (convs more : list pyval) (ci : dict) :
  forallb (fun kv => points_at convs (fst kv) (snd kv)) ci = true ->
  forallb (fun kv => points_at (convs ++ more) (fst kv) (snd kv)) ci = true.
Proof.
  rewrite !forallb_forall. intros H kv Hin. apply points_at_app. auto.
Qed.

Lemma add_to_knowledge_indexed (t1 t2 query : str) (response : pyval)
    (w w' : cli) :
  add_to_knowledge t1 t2 query response w = Return w' ->
  indexed (load_knowledge w) = true -> indexed (load_knowledge w') = true.
Proof.
  intros H. apply add_to_knowledge_inv in H
    as (d & d' & answer & lines & Hd & -> & _ & _ & Hconv & _ & Hcore).
  rewrite load_save, Hd. unfold indexed. rewrite Hconv. intros Hi.
  destruct (collect_core_points lines []) as [|p ps].
  - replace (core_instructions_of (PDict d'))
      with (core_instructions_of (PDict d))
      by (unfold core_instructions_of; now rewrite Hcore).
    now apply forallb_points_at_app.
  - destruct Hcore as (ci & Hci & Hci').
    rewrite (core_instructions_of_lookup _ _ Hci) in Hi.
    rewrite (core_instructions_of_lookup _ _ Hci').
    apply forallb_dict_set_pair.
    + now apply forallb_points_at_app.
    + apply points_at_new.
Qed.

Lemma save_conversation_indexed (now : str) (w w' : cli) :
  save_conversation now w = Return w' ->
  indexed (load_knowledge w) = true -> indexed (load_knowledge w') = true.
Proof.
  unfold save_conversation.
  destruct (conversation_history w) as [|h hs].
  - intros H. now injection H as <-.
  - destruct (append_conversation (load_knowledge w) _) as [k|e] eqn:Ha;
      [|discriminate].
    cbn [bind]. intros H. injection H as <-. rewrite load_save.
    apply append_conversation_inv in Ha as (d & d' & Hd & -> & Hlook).
    rewrite Hd in *. unfold indexed.
    replace (core_instructions_of (PDict d'))
      with (core_instructions_of (PDict d))
      by (unfold core_instructions_of; now rewrite Hlook, str_eqb_conv_ci).
    pose proof (Hlook k_conversations) as Hc.
    rewrite str_eqb_refl in Hc.
    rewrite (conversations_of_lookup d' _ Hc).
    apply forallb_points_at_app.
Qed.

Lemma store_step_indexed (w w' : cli) :
  store_step w w' ->
  indexed (load_knowledge w) = true -> indexed (load_knowledge w') = true.
Proof.
  intros [Hk | t1 t2 query response w0 Hk Ha | t Hs].
  - unfold load_knowledge. now rewrite Hk.
  - intros Hi. apply (add_to_knowledge_indexed _ _ _ _ _ _ Ha).
    unfold load_knowledge in *. now rewrite Hk.
  - exact (save_conversation_indexed _ _ _ Hs).
Qed.

Lemma indexed_meaning (knowledge : pyval) (topic : str) (entry : pyval) :
  indexed knowledge = true ->
  In (topic, entry) (core_instructions_of knowledge) ->
  exists i record q,
    field k_source_conversation entry = Some (PInt (Z.of_nat i)) /\
    nth_error (conversations_of knowledge) i = Some record /\
    field k_query record = Some (PStr q) /\
    topic_of q = topic.
Proof.
  unfold indexed. rewrite forallb_forall. intros H Hin.
  specialize (H _ Hin). cbn [fst snd] in H. unfold points_at in H.
  destruct (field k_source_conversation entry) as [v|]; [|discriminate].
  destruct v as [| b | i | s | l | d]; try discriminate.
  apply andb_true_iff in H as [Hpos H]. apply Z.leb_le in Hpos.
  destruct (nth_error (conversations_of knowledge) (Z.to_nat i))
    as [record|] eqn:E; [|discriminate].
  destruct (field k_query record) as [v|] eqn:Eq; [|discriminate].
  destruct v as [| b | z | q | l | d]; try discriminate.
  apply str_eqb_eq in H.
  exists (Z.to_nat i), record, q. rewrite Z2Nat.id by exact Hpos.
  repeat split; first [reflexivity | assumption].
Qed.

(** X7.  Along every run, from a store in which every instruction entry
    points at an existing conversation record whose stored query gives the
    entry's topic, every entry of the store still does: no
    [source_conversation] index is ever out of range or points at a record
    of another topic.  The store of a first start is such a store. *)
Theorem source_index_is_valid (py_repr : pyval -> str) (evs : list event)
    (now : str) (w : cli) :
  indexed (load_knowledge w) = true ->
  let after := load_knowledge (run py_repr evs now w) in
  indexed (load_knowledge (run_loop py_repr evs w)) = true /\
  indexed after = true /\
  (forall topic entry,
      In (topic, entry) (core_instructions_of after) ->
      exists i record q,
        field k_source_conversation entry = Some (PInt (Z.of_nat i)) /\
        nth_error (conversations_of after) i = Some record /\
        field k_query record = Some (PStr q) /\
        topic_of q = topic) /\
  (forall env_key config,
      indexed (load_knowledge (init env_key Absent config)) = true).
Proof.
  intros H. cbv zeta.
  assert (Hl : indexed (load_knowledge (run_loop py_repr evs w)) = true).
  { apply (run_loop_invariant py_repr
             (fun w => indexed (load_knowledge w) = true)); [|exact H].
    intros ev w0 H0. eapply store_step_indexed; [|exact H0].
    apply turn_steps. }
  assert (Hr : indexed (load_knowledge (run py_repr evs now w)) = true).
  { unfold run.
    destruct (conversation_history (run_loop py_repr evs w)); [exact Hl|].
    destruct (save_conversation now (run_loop py_repr evs w))
      as [w'|e] eqn:Hs; [|exact Hl].
    now apply (save_conversation_indexed _ _ _ Hs). }
  split; [exact Hl|]. split; [exact Hr|].
  split; [|reflexivity].
  intros topic entry. now apply indexed_meaning.
Qed.

(** ** Search after storing, and narrower queries *)

Lemma dict_get_In (k : str) (v : pyval) (d : dict) :
  dict_get k d = Some v -> In (k, v) d.
Proof.
  induction d as [|[k' v'] d IH]; cbn [dict_get]; [discriminate|].
  destruct (str_eqb k' k) eqn:E.
  - apply str_eqb_eq in E. subst. intros H. injection H as ->. now left.
  - intros H. right. auto.
Qed.

Lemma icontains_refl (text : str) : icontains text text = true.
Proof.
  apply icontains_spec. exists [], []. now rewrite app_nil_r.
Qed.

Lemma icontains_trans (a b c : str) :
  icontains a b = true -> icontains b c = true -> icontains a c = true.
Proof.
  unfold icontains. rewrite !contains_spec.
  intros (p1 & s1 & H1) (p2 & s2 & H2).
  exists (p2 ++ p1), (s1 ++ s2). rewrite H2, H1.
  now rewrite <- !app_assoc.
Qed.

(** X8.  What [add_to_knowledge] has just stored is found again: on a
    store that is well shaped and searchable, after a call whose response
    carries a core point, searching for the topic key of the query returns
    a list that holds the record of the new entry, with its type, its topic
    and the entry as content. *)
Theorem stored_entry_is_found (t1 t2 query response : str) (w : cli) :
  well_shaped (load_knowledge w) = true ->
  searchable (load_knowledge w) = true ->
  collect_core_points (split_lines response) [] <> [] ->
  exists w' results,
    add_to_knowledge t1 t2 query (PStr response) w = Return w' /\
    search_knowledge (topic_of query) w' = Return results /\
    In (PDict
          [ (lit "type", PStr (lit "core_instructions"));
            (lit "topic", PStr (topic_of query));
            (lit "content",
             instruction_entry t2
               (collect_core_points (split_lines response) [])
               (Z.of_nat (length (conversations_of (load_knowledge w))))) ])
       results.
Proof.
  intros Hw Hs Hp.
  destruct (add_to_knowledge_effect t1 t2 query response w Hw)
    as (w' & Ha & _ & _ & Hi).
  pose proof (add_to_knowledge_grows _ _ _ _ _ _ Ha)
    as (_ & _ & _ & _ & (_ & _ & _ & _ & Hs')).
  exists w'. eexists. split; [exact Ha|].
  split; [apply search_knowledge_filter; auto|].
  destruct (collect_core_points (split_lines response) []) as [|p ps];
    [congruence|].
  set (entry := instruction_entry t2 (p :: ps) _) in *.
  apply (in_map (fun kv => search_result (fst kv) (snd kv))
           _ (topic_of query, entry)).
  apply filter_In. split.
  - apply dict_get_In. rewrite Hi. apply dict_get_set_same.
  - unfold hit. cbn [fst]. now rewrite icontains_refl.
Qed.

(** X9.  A query whose lowered text contains the lowered text of another
    finds no more than the other: on a searchable store every result for
    the longer query is a result for the shorter one, and both searches
    return. *)
Theorem narrower_query_finds_less (short long : str) (w : cli) :
  searchable (load_knowledge w) = true ->
  contains (lower short) (lower long) = true ->
  exists found_short found_long,
    search_knowledge short w = Return found_short /\
    search_knowledge long w = Return found_long /\
    (forall r, In r found_long -> In r found_short) /\
    length found_long <= length found_short.
Proof.
  intros Hs Hc.
  assert (Hhit : forall kv, hit long kv = true -> hit short kv = true).
  { intros kv. unfold hit. rewrite !orb_true_iff.
    intros [H|H]; [left|right]; eapply icontains_trans; eassumption. }
  eexists. eexists.
  split; [now apply search_knowledge_filter|].
  split; [now apply search_knowledge_filter|].
  split.
  - intros r Hr. apply in_map_iff in Hr as (kv & <- & Hkv).
    apply filter_In in Hkv as [Hin Hl].
    apply (in_map (fun kv => search_result (fst kv) (snd kv))).
    apply filter_In. auto.
  - rewrite !length_map.
    induction (core_instructions_of (load_knowledge w)) as [|kv l IH];
      cbn [filter]; [lia|].
    destruct (hit long kv) eqn:E.
    + rewrite (Hhit _ E). cbn [length]. lia.
    + destruct (hit short kv); cbn [length]; lia.
Qed.

(** ** Saving the history (lines 220-234, 339-343) *)

(** What a save does on a well-shaped store when there is a history. *)
Lemma save_conversation_effect (now : str) (w : cli) :
  well_shaped (load_knowledge w) = true ->
  conversation_history w <> [] ->
  exists w',
    save_conversation now w = Return w' /\
    well_shaped (load_knowledge w') = true /\
    conversation_history w' = conversation_history w /\
    current_context w' = current_context w /\
    conversations_of (load_knowledge w')
    = conversations_of (load_knowledge w)
      ++ [batch_record now (conversation_history w) (current_context w)] /\
    core_instructions_of (load_knowledge w')
    = core_instructions_of (load_knowledge w).
Proof.
  intros Hw Hh. unfold save_conversation.
  destruct (conversation_history w) as [|h hs] eqn:Eh; [congruence|].
  fold (batch_record now (h :: hs) (current_context w)).
  destruct (append_conversation_ok (load_knowledge w)
              (batch_record now (h :: hs) (current_context w)) Hw)
    as [k Ha].
  rewrite Ha. cbn [bind]. eexists. split; [reflexivity|].
  rewrite load_save.
  pose proof (append_conversation_grows _ _ _ Ha) as (_ & _ & _ & Hs & _).
  apply append_conversation_inv in Ha as (d & d' & Hd & -> & Hlook).
  split; [auto|]. split; [exact Eh|]. split; [reflexivity|].
  split.
  - apply conversations_of_lookup. now rewrite Hlook, str_eqb_refl.
  - rewrite Hd. unfold core_instructions_of.
    now rewrite Hlook, str_eqb_conv_ci.
Qed.

(** X10.  On leaving the loop with a well-shaped store, a history that is
    not empty is written as one batch record, holding the whole history
    and the rolling context, after the conversations already stored, and
    the instructions are untouched; with an empty history nothing is
    written. *)
Theorem exit_flushes_history (py_repr : pyval -> str) (evs : list event)
    (now : str) (w : cli) :
  well_shaped (load_knowledge w) = true ->
  let last := run_loop py_repr evs w in
  let final := run py_repr evs now w in
  (conversation_history last = [] -> final = last) /\
  (conversation_history last <> [] ->
   conversations_of (load_knowledge final)
   = conversations_of (load_knowledge last)
     ++ [batch_record now (conversation_history last)
           (current_context last)] /\
   core_instructions_of (load_knowledge final)
   = core_instructions_of (load_knowledge last)).
Proof.
  intros Hw. cbv zeta. unfold run. split.
  - intros ->. reflexivity.
  - intros Hh.
    pose proof (run_loop_grows py_repr evs w) as (_ & _ & _ & Hs & _).
    destruct (save_conversation_effect now (run_loop py_repr evs w)
                (Hs Hw) Hh)
      as (w' & Hsave & _ & _ & _ & Hc & Hi).
    destruct (conversation_history (run_loop py_repr evs w)) as [|h hs];
      [congruence|].
    rewrite Hsave. split; assumption.
Qed.

(** X11.  Saving does not empty the history: two saves in a row, on a
    well-shaped store with a history, append two batch records that hold
    the same history and context. *)
Theorem saving_twice_stores_twice (now now' : str) (w : cli) :
  well_shaped (load_knowledge w) = true ->
  conversation_history w <> [] ->
  exists w1 w2,
    save_conversation now w = Return w1 /\
    save_conversation now' w1 = Return w2 /\
    conversation_history w2 = conversation_history w /\
    conversations_of (load_knowledge w2)
    = conversations_of (load_knowledge w)
      ++ [batch_record now (conversation_history w) (current_context w);
          batch_record now' (conversation_history w) (current_context w)].
Proof.
  intros Hw Hh.
  destruct (save_conversation_effect now w Hw Hh)
    as (w1 & Hs1 & Hw1 & Hh1 & Hc1 & Hv1 & _).
  assert (Hh1' : conversation_history w1 <> []) by congruence.
  destruct (save_conversation_effect now' w1 Hw1 Hh1')
    as (w2 & Hs2 & _ & Hh2 & _ & Hv2 & _).
  exists w1, w2. split; [exact Hs1|]. split; [exact Hs2|].
  split; [congruence|].
  rewrite Hv2, Hv1, Hh1, Hc1, <- app_assoc. reflexivity.
Qed.

(** ** The API key (lines 49-66, 236-244; setup_interactive.py 51-79) *)

Lemma split_ws_words (s cur : str) :
  forallb is_space cur = false \/ cur = [] ->
  Forall (fun word => word <> []) (split_ws s cur).
Proof.
  revert cur. induction s as [|c s IH]; intros cur Hcur; cbn [split_ws].
  - destruct cur as [|x cur]; constructor; [|constructor].
    intros H. apply (f_equal (@length N)) in H.
    rewrite length_rev in H. discriminate.
  - destruct (is_space c) eqn:E.
    + destruct cur as [|x cur]; [apply IH; now right|].
      constructor; [|apply IH; now right].
      intros H. apply (f_equal (@length N)) in H.
      rewrite length_rev in H. discriminate.
    + apply IH. left. cbn [forallb]. now rewrite E.
Qed.

(** Writing the key and reading it back. *)
Lemma api_key_written_is_read (key : str) (w : cli) :
  key <> [] ->
  deepseek (setup_api_key key w) = Some (PStr key) /\
  knowledge_file (setup_api_key key w) = knowledge_file w /\
  load_api_key None (config_file (setup_api_key key w)) = Some (PStr key) /\
  load_api_key (Some []) (config_file (setup_api_key key w))
  = Some (PStr key).
Proof.
  intros Hk. destruct key as [|c key]; [congruence|].
  repeat split.
Qed.

(** X12.  The command [/setup KEY], in any letter case and with any
    spacing, makes KEY the client's key at once and writes it to the
    configuration file, leaving the store file alone; KEY is never empty;
    and a later start without a usable environment variable builds its
    client from that key, whatever the store file holds. *)
Theorem setup_command_round_trip (ev : event) (command first key : str)
    (rest : list str) (w : cli) :
  split_ws command [] = first :: key :: rest ->
  lower first = lit "setup" ->
  key <> [] /\
  handle_slash_command ev command w
  = Return (setup_api_key key w, Continue) /\
  deepseek (setup_api_key key w) = Some (PStr key) /\
  knowledge_file (setup_api_key key w) = knowledge_file w /\
  (forall knowledge,
      deepseek (init None knowledge (config_file (setup_api_key key w)))
      = Some (PStr key) /\
      deepseek (init (Some []) knowledge
                  (config_file (setup_api_key key w)))
      = Some (PStr key)).
Proof.
  intros Hs Hl.
  assert (Hk : key <> []).
  { pose proof (split_ws_words command [] (or_intror eq_refl)) as Hw.
    rewrite Hs in Hw. inversion Hw as [|? ? _ Hw']; subst.
    inversion Hw' as [|? ? Hk _]; subst. exact Hk. }
  split; [exact Hk|].
  destruct (api_key_written_is_read key w Hk) as (Hd & Hf & Hn & He).
  split.
  - unfold handle_slash_command. rewrite Hs. cbv zeta. rewrite Hl.
    reflexivity.
  - split; [exact Hd|]. split; [exact Hf|].
    intros knowledge. unfold init, setup_directories.
    split.
    + destruct (file_exists _); cbn [deepseek save_knowledge
        set_knowledge_file]; exact Hn.
    + destruct (file_exists _); cbn [deepseek save_knowledge
        set_knowledge_file]; exact He.
Qed.


(** ** The completion client (lines 357-383) *)

Lemma py_getitem_raises (v : pyval) (k : str) (e : exn) :
  py_getitem v k = Raise e -> e = KeyError \/ e = TypeError.
Proof.
  destruct v as [| b | z | s | l | d]; cbn [py_getitem];
    try (intros H; injection H as <-; now right).
  destruct (dict_get k d); [discriminate|].
  intros H; injection H as <-; now left.
Qed.

Lemma py_getitem0_raises (v : pyval) (e : exn) :
  py_getitem0 v = Raise e ->
  e = IndexError \/ e = KeyError \/ e = TypeError.
Proof.
  destruct v as [| b | z | s | l | d]; cbn [py_getitem0];
    try (intros H; injection H as <-; tauto).
  - destruct s; [|discriminate]. intros H; injection H as <-; tauto.
  - destruct l; [|discriminate]. intros H; injection H as <-; tauto.
Qed.

Lemma query_body_raises (result : pyval) (e : exn) :
  query_body (HttpJson result) = Raise e ->
  e = IndexError \/ e = KeyError \/ e = TypeError.
Proof.
  cbn [query_body].
  destruct (py_getitem result (lit "choices")) as [choices|e1] eqn:E1;
    cbn [bind].
  - destruct (py_getitem0 choices) as [first|e2] eqn:E2; cbn [bind].
    + destruct (py_getitem first (lit "message")) as [message|e3] eqn:E3;
        cbn [bind].
      * intros H. apply py_getitem_raises in H. tauto.
      * intros H. injection H as <-. apply py_getitem_raises in E3. tauto.
    + intros H. injection H as <-. now apply py_getitem0_raises in E2.
  - intros H. injection H as <-. apply py_getitem_raises in E1. tauto.
Qed.

(** X14.  The client never lets through an exception that one of its
    [except] clauses names: whatever the network does, a
    [RequestException], a [KeyError] or a [JSONDecodeError] comes back as a
    text.  For a body that parses, the only exceptions that leave the
    client are [IndexError] and [TypeError]; a body without the key
    "choices" gives the text "Error: Invalid API response format", and a
    well-formed completion gives its content. *)
Theorem client_exceptions (http : http_result) :
  (forall e, DeepSeekAPI_query http = Raise e ->
             error_text e = None /\ query_body http = Raise e) /\
  (forall e text, query_body http = Raise e -> error_text e = Some text ->
                  DeepSeekAPI_query http = Return (PStr text)) /\
  (forall result e,
      http = HttpJson result -> DeepSeekAPI_query http = Raise e ->
      e = IndexError \/ e = TypeError) /\
  (forall d,
      http = HttpJson (PDict d) -> dict_get (lit "choices") d = None ->
      DeepSeekAPI_query http = Return (PStr invalid_format)) /\
  (forall content,
      http = HttpJson (completion content) ->
      DeepSeekAPI_query http = Return (PStr content)).
Proof.
  assert (H1 : forall e, DeepSeekAPI_query http = Raise e ->
                         error_text e = None /\ query_body http = Raise e).
  { intros e. unfold DeepSeekAPI_query.
    destruct (query_body http) as [v|e']; [discriminate|].
    destruct e'; try discriminate; intros H; injection H as <-;
      split; reflexivity. }
  split; [exact H1|]. split; [|split; [|split]].
  - intros e text. apply DeepSeekAPI_query_handled.
  - intros result e -> H. destruct (H1 e H) as [Hn Hb].
    apply query_body_raises in Hb as [-> | [-> | ->]];
      [now left | discriminate | now right].
  - intros d -> Hd. unfold DeepSeekAPI_query. cbn [query_body py_getitem].
    rewrite Hd. reflexivity.
  - intros content ->. reflexivity.
Qed.

(** ** Slash commands (lines 160-218) *)

(** X15.  What a slash command can touch is fixed by its first word, read
    without regard to letter case: only [save] can change the store file,
    only [setup] the configuration file and the client, only [clear] the
    history and the rolling context, and only [exit] ends the loop; a
    command without any word raises [IndexError]. *)
Theorem slash_command_effects (ev : event) (command : str) (w : cli) :
  (split_ws command [] = [] ->
   handle_slash_command ev command w = Raise IndexError) /\
  (forall w' c,
      handle_slash_command ev command w = Return (w', c) ->
      exists first args,
        split_ws command [] = first :: args /\
        (lower first <> lit "save" ->
         knowledge_file w' = knowledge_file w) /\
        (lower first <> lit "setup" ->
         config_file w' = config_file w /\ deepseek w' = deepseek w) /\
        (lower first <> lit "clear" ->
         conversation_history w' = conversation_history w /\
         current_context w' = current_context w) /\
        (c = Exit -> lower first = lit "exit")).
Proof.
  split.
  - intros H. unfold handle_slash_command. now rewrite H.
  - intros w' c. unfold handle_slash_command.
    destruct (split_ws command []) as [|first args]; [discriminate|].
    cbv zeta. intros H. exists first, args. split; [reflexivity|].
    destruct (str_eqb (lower first) (lit "help")) eqn:E1.
    { injection H as <- <-. repeat split; discriminate. }
    destruct (str_eqb (lower first) (lit "clear")) eqn:E2.
    { apply str_eqb_eq in E2. injection H as <- <-. rewrite E2.
      repeat split; try discriminate; congruence. }
    destruct (str_eqb (lower first) (lit "context")) eqn:E3.
    { injection H as <- <-. repeat split; discriminate. }
    destruct (str_eqb (lower first) (lit "search")
              && (1 <? length (first :: args))) eqn:E4.
    { destruct (search_command args w); [|discriminate].
      cbn [bind] in H. injection H as <- <-. repeat split; discriminate. }
    destruct (str_eqb (lower first) (lit "list")) eqn:E5.
    { destruct (list_command w); [|discriminate].
      cbn [bind] in H. injection H as <- <-. repeat split; discriminate. }
    destruct (str_eqb (lower first) (lit "save")) eqn:E6.
    { apply str_eqb_eq in E6.
      destruct (conversation_history w) eqn:Eh.
      - injection H as <- <-. rewrite Eh. repeat split; discriminate.
      - destruct (save_conversation (now1 ev) w) as [w1|e] eqn:Hs;
          [|discriminate].
        cbn [bind] in H. injection H as <- <-.
        apply save_conversation_grows in Hs as (Hc & Hd & Hh & Hx & _).
        rewrite E6. repeat split; try discriminate; try congruence. }
    destruct (str_eqb (lower first) (lit "setup")
              && (1 <? length (first :: args))) eqn:E7.
    { apply andb_true_iff in E7 as [E7 _]. apply str_eqb_eq in E7.
      destruct args; injection H as <- <-; rewrite E7;
        repeat split; try discriminate; congruence. }
    destruct (str_eqb (lower first) (lit "exit")) eqn:E8.
    { apply str_eqb_eq in E8. injection H as <- <-.
      repeat split; congruence. }
    injection H as <- <-. repeat split; discriminate.
Qed.

(** ** Turns of the query pipeline (lines 246-308) *)

Section TurnFacts.

Variable py_repr : pyval -> str.

(** X16.  Without a client nothing is asked and nothing is recorded: a
    line that is not a command leaves the whole state as it was, whatever
    the network would answer, and [handle_user_query], when it returns,
    returns the notice about the missing key. *)
Theorem no_key_no_change (ev : event) (w : cli) :
  deepseek w = None ->
  startswith (lit "/") (strip (input ev)) = false ->
  turn py_repr ev w = (w, Continue) /\
  (forall query a w',
      handle_user_query py_repr ev query w = Return (a, w') ->
      a = NoApiKey /\ w' = w).
Proof.
  intros Hd Hs.
  assert (Hq : forall query a w',
             handle_user_query py_repr ev query w = Return (a, w') ->
             a = NoApiKey /\ w' = w).
  { intros query a w'. unfold handle_user_query.
    destruct (gather_context py_repr query w); [|discriminate].
    cbn [bind]. rewrite Hd. intros H. injection H as <- <-. auto. }
  split; [|exact Hq].
  unfold turn. destruct (strip (input ev)) as [|c user_input];
    [reflexivity|].
  unfold process_command. rewrite Hs.
  destruct (handle_user_query py_repr ev (c :: user_input) w)
    as [[a w']|e] eqn:E; [|reflexivity].
  cbn [bind snd]. destruct (Hq _ _ _ E) as [_ ->]. reflexivity.
Qed.


(** X18.  The prompt after an exchange: the last three entries of the
    rolling context are the two lines of the exchange just recorded,
    preceded by the last line before it when there is one; so the next
    prompt carries the latest exchange whole and of the one before only
    the assistant's line. *)
Theorem next_context_block (w' : cli) (ctx : list str) (query r next : str) :
  current_context w' = exchange ctx (query, r) ->
  lastn 3 (current_context w')
  = lastn 1 (trim_context ctx)
    ++ [user_line query; lit "Assistant: " ++ firstn 200 r ++ lit "..."] /\
  gather_context py_repr next w'
  = Return (join nl
              (lastn 1 (trim_context ctx)
               ++ [user_line query;
                   lit "Assistant: " ++ firstn 200 r ++ lit "..."])).
Proof.
  intros H.
  assert (Hl : lastn 3 (current_context w')
               = lastn 1 (trim_context ctx)
                 ++ [user_line query;
                     lit "Assistant: " ++ firstn 200 r ++ lit "..."]).
  { rewrite H. unfold exchange, lastn. cbn [fst snd].
    rewrite length_app. cbn [length].
    destruct (trim_context ctx) as [|x t] eqn:E; [reflexivity|].
    replace (length (x :: t) + 2 - 3) with (length (x :: t) - 1)
      by (cbn [length]; lia).
    rewrite skipn_app.
    replace (length (x :: t) - 1 - length (x :: t)) with 0 by lia.
    reflexivity. }
  split; [exact Hl|].
  unfold gather_context. rewrite <- Hl.
  destruct (current_context w') eqn:E; [|reflexivity].
  unfold exchange in H. destruct (trim_context ctx); discriminate.
Qed.

(** X19.  [handle_user_query] raises only out of the search of step 1:
    with a rolling context that is not empty it always returns, on a
    searchable store it always returns, and when it raises the context was
    empty and the exception is the one the gathering raised. *)
Theorem query_raises_only_from_search (ev : event) (query : str) (w : cli) :
  (current_context w <> [] ->
   exists a w', handle_user_query py_repr ev query w = Return (a, w')) /\
  (searchable (load_knowledge w) = true ->
   exists a w', handle_user_query py_repr ev query w = Return (a, w')) /\
  (forall e,
      handle_user_query py_repr ev query w = Raise e ->
      current_context w = [] /\
      gather_context py_repr query w = Raise e /\
      searchable (load_knowledge w) = false).
Proof.
  assert (Hret : forall context,
             gather_context py_repr query w = Return context ->
             exists a w',
               handle_user_query py_repr ev query w = Return (a, w')).
  { intros context Hg. unfold handle_user_query. rewrite Hg. cbn [bind].
    destruct (deepseek w); [|eauto].
    destruct (complete_turn py_repr ev query w
                (api ev (build_prompt context query))) as [a w'].
    eauto. }
  assert (Hctx : current_context w <> [] ->
                 exists context,
                   gather_context py_repr query w = Return context).
  { intros Hne. unfold gather_context.
    destruct (current_context w); [congruence | eauto]. }
  assert (Hsea : searchable (load_knowledge w) = true ->
                 exists context,
                   gather_context py_repr query w = Return context).
  { intros Hs. destruct (current_context w) eqn:E.
    - rewrite (gather_context_search py_repr _ _ E Hs). eauto.
    - apply Hctx. congruence. }
  split; [intros H; destruct (Hctx H); eauto|].
  split; [intros H; destruct (Hsea H); eauto|].
  intros e He.
  assert (Hg : gather_context py_repr query w = Raise e).
  { unfold handle_user_query in He.
    destruct (gather_context py_repr query w) as [context|e']; cbn [bind]
      in He; [destruct (deepseek w); discriminate | congruence]. }
  split; [|split; [exact Hg|]].
  - destruct (current_context w) eqn:E; [reflexivity|].
    destruct Hctx as [c Hc]; [discriminate | congruence].
  - destruct (searchable (load_knowledge w)) eqn:E; [|reflexivity].
    destruct (Hsea eq_refl) as [c Hc]. congruence.
Qed.

End TurnFacts.

(** ** Turns on a store that cannot be used *)

Lemma add_to_knowledge_not_dict (t1 t2 query r : str) (w : cli) :
  (forall d, load_knowledge w <> PDict d) ->
  add_to_knowledge t1 t2 query (PStr r) w = Raise TypeError.
Proof.
  intros Hn. unfold add_to_knowledge. cbn [py_slice bind].
  rewrite append_conversation_cases.
  destruct (load_knowledge w) as [| b | z | s | l | d]; try reflexivity.
  now destruct (Hn d).
Qed.

(** X20.  When storing fails, the answer is lost to the caller: with a
    client, a gathered context and a completion that is a string, a turn
    whose [add_to_knowledge] raises returns the error text for that
    exception instead of the completion, although history and rolling
    context already hold the exchange; the store file is untouched.  This
    happens with [TypeError] whenever the store file holds a JSON value
    that is not an object. *)
Theorem failed_store_hides_response (py_repr : pyval -> str) (ev : event)
    (query context r : str) (w : cli) (key : pyval) :
  deepseek w = Some key ->
  gather_context py_repr query w = Return context ->
  DeepSeekAPI_query (api ev (build_prompt context query))
  = Return (PStr r) ->
  (forall e,
      add_to_knowledge (now1 ev) (now2 ev) query (PStr r) (noted query r w)
      = Raise e ->
      handle_user_query py_repr ev query w
      = Return (ApiError e, noted query r w)) /\
  ((forall d, load_knowledge w <> PDict d) ->
   handle_user_query py_repr ev query w
   = Return (ApiError TypeError, noted query r w)) /\
  knowledge_file (noted query r w) = knowledge_file w /\
  conversation_history (noted query r w)
  = conversation_history w ++ dialogue [(query, PStr r)] /\
  current_context (noted query r w) = exchange (current_context w) (query, r).
Proof.
  intros Hk Hg Hq.
  assert (H1 : forall e,
             add_to_knowledge (now1 ev) (now2 ev) query (PStr r)
               (noted query r w) = Raise e ->
             handle_user_query py_repr ev query w
             = Return (ApiError e, noted query r w)).
  { intros e He. unfold handle_user_query. rewrite Hg, Hk. cbn [bind].
    unfold complete_turn. now rewrite Hq, record_response_str, He. }
  split; [exact H1|]. split; [|repeat split].
  intros Hn. apply H1. now apply add_to_knowledge_not_dict.
Qed.

(** X21.  A store file that is missing or cannot be parsed is not repaired
    at start, when it exists, but replaced by the first exchange that is
    stored: the call returns, the file then holds a JSON object whose
    conversations are exactly the new record and whose instructions are
    at most the new entry.  Whatever the unparseable file held is gone. *)
Theorem unreadable_store_is_replaced (t1 t2 query r : str) (w : cli) :
  knowledge_file w = Absent \/ knowledge_file w = Unparseable ->
  (forall env_key config,
      knowledge_file (init env_key Unparseable config) = Unparseable) /\
  exists w' d,
    add_to_knowledge t1 t2 query (PStr r) w = Return w' /\
    knowledge_file w' = Json (PDict d) /\
    conversations_of (load_knowledge w')
    = [conversation_record t1 query (PStr (firstn 1000 r))
         (current_context w)] /\
    core_instructions_of (load_knowledge w')
    = match collect_core_points (split_lines r) [] with
      | [] => []
      | (_ :: _) as core_points =>
          [(topic_of query, instruction_entry t2 core_points 0)]
      end.
Proof.
  intros Hf. split; [reflexivity|].
  assert (He : load_knowledge w = empty_knowledge).
  { unfold load_knowledge. destruct Hf as [-> | ->]; reflexivity. }
  assert (Hw : well_shaped (load_knowledge w) = true) by now rewrite He.
  destruct (add_to_knowledge_effect t1 t2 query r w Hw)
    as (w' & Ha & _ & Hc & Hi).
  pose proof Ha as Hinv.
  apply add_to_knowledge_inv in Hinv as (d0 & d' & _ & _ & _ & Hsave & _).
  exists w', d'. split; [exact Ha|].
  split; [now rewrite Hsave|].
  rewrite Hc, Hi, He. split; [reflexivity|].
  destruct (collect_core_points (split_lines r) []); reflexivity.
Qed.

End Python.

(* ================================================================== *)
(** * The properties at work *)
(* ================================================================== *)

(** The sample sessions below are ASCII text, on which [str.lower()] is
    [ascii_lower]. *)
#[export] Existing Instance ascii_lowering.

Lemma add_to_knowledge_three_core_points_witness :
  well_shaped (load_knowledge fresh) = true /\
  3 <= length (filter is_core_point (split_lines indented_response)) /\
  exists w',
    add_to_knowledge stamp1 stamp2 mutex_query (PStr indented_response) fresh
    = Return w' /\
    dict_get (topic_of mutex_query) (core_instructions_of (load_knowledge w'))
    = Some (instruction_entry stamp2
              [lit "1. Lock the mutex."; lit "2. Do the work.";
               lit "3. Unlock it."] 0).
Proof.
  split; [reflexivity|].
  split; [vm_compute; lia|].
  destruct (add_to_knowledge_three_core_points stamp1 stamp2 mutex_query
              indented_response fresh)
    as (w' & Hadd & _ & Hget & _).
  - reflexivity.
  - vm_compute; lia.
  - exists w'. split; [exact Hadd|]. exact Hget.
Defined.

(** C1 as stated fails: the stored instructions are not the matching lines
    themselves when a matching line carries surrounding whitespace, and a
    second call with the same query adds no entry. *)
Lemma stored_instructions_are_stripped :
  3 <= length (filter is_core_point (split_lines indented_response)) /\
  (exists w' text,
      add_to_knowledge stamp1 stamp2 mutex_query (PStr indented_response)
        fresh = Return w' /\
      option_map (field k_instructions)
        (dict_get (topic_of mutex_query)
           (core_instructions_of (load_knowledge w')))
      = Some (Some (PStr text)) /\
      text <> join nl (firstn 3 (filter is_core_point
                                   (split_lines indented_response)))) /\
  (exists w1 w2,
      add_to_knowledge stamp1 stamp2 mutex_query (PStr indented_response)
        fresh = Return w1 /\
      add_to_knowledge stamp1 stamp2 mutex_query (PStr indented_response)
        w1 = Return w2 /\
      length (core_instructions_of (load_knowledge w2))
      = length (core_instructions_of (load_knowledge w1))).
Proof.
  split; [vm_compute; lia|]. split.
  - eexists. eexists. split; [vm_compute; reflexivity|].
    split; [vm_compute; reflexivity|].
    vm_compute. discriminate.
  - eexists. eexists. split; [vm_compute; reflexivity|].
    split; [vm_compute; reflexivity|]. reflexivity.
Qed.

(** The scenario of the empty store and the mutex question: two numbered
    lines are kept, the trailing text is not. *)
Example mutex_scenario :
  exists w',
    add_to_knowledge stamp1 stamp2 mutex_query (PStr mutex_response) fresh
    = Return w' /\
    core_instructions_of (load_knowledge w')
    = [ (lit "What is a mutex?",
         instruction_entry stamp2
           [lit "1. A mutex is a lock."; lit "2. Only one holder at a time."]
           0) ].
Proof. eexists. split; vm_compute; reflexivity. Qed.

Lemma add_to_knowledge_appends_record_witness :
  well_shaped (load_knowledge fresh) = true /\
  exists w',
    add_to_knowledge stamp1 stamp2 mutex_query (PStr mutex_response) fresh
    = Return w' /\
    conversations_of (load_knowledge w')
    = [conversation_record stamp1 mutex_query (PStr mutex_response) []].
Proof.
  split; [reflexivity|].
  destruct (add_to_knowledge_appends_record stamp1 stamp2 mutex_query
              mutex_response fresh)
    as (w' & Hadd & Hconv & _).
  - reflexivity.
  - exists w'. split; [exact Hadd|]. exact Hconv.
Defined.

Lemma search_knowledge_empty_query_witness :
  core_instructions_of (load_knowledge btree_store)
  = [ (lit "database indexing",
       instruction_entry stamp2 [lit "1. Use a B-tree for range scans."] 0) ] /\
  search_knowledge [] btree_store
  = Return
      [ PDict
          [ (lit "type", PStr (lit "core_instructions"));
            (lit "topic", PStr (lit "database indexing"));
            (lit "content",
             instruction_entry stamp2
               [lit "1. Use a B-tree for range scans."] 0) ] ].
Proof.
  split; [vm_compute; reflexivity|].
  destruct (search_knowledge_empty_query btree_store
              [ (k_summary, PList []);
                (k_core_instructions,
                 PDict [ (lit "database indexing",
                          instruction_entry stamp2
                            [lit "1. Use a B-tree for range scans."] 0) ]);
                (k_api_interactions, PList []);
                (k_conversations,
                 PList [ conversation_record stamp1 (lit "database indexing")
                           (PStr (lit "1. Use a B-tree for range scans."))
                           [] ]) ]
              [ (lit "database indexing",
                 instruction_entry stamp2
                   [lit "1. Use a B-tree for range scans."] 0) ])
    as (H & _); [vm_compute; reflexivity | vm_compute; reflexivity |].
  exact H.
Defined.

Lemma load_knowledge_default_witness :
  knowledge_file (mkCli Unparseable Absent None [] []) = Unparseable /\
  load_knowledge (mkCli Unparseable Absent None [] []) = empty_knowledge.
Proof.
  split; [reflexivity|].
  apply (load_knowledge_default (mkCli Unparseable Absent None [] [])).
  right. reflexivity.
Defined.


Lemma store_only_grows_witness :
  all_usage_one (load_knowledge fresh) = true /\
  all_usage_one
    (load_knowledge (run (fun _ => []) four_questions stamp2 fresh)) = true.
Proof.
  split; [reflexivity|].
  destruct (store_only_grows (fun _ => []) four_questions stamp2 fresh)
    as (_ & _ & H & _).
  apply H. reflexivity.
Defined.

Lemma prompt_assembly_witness :
  (deepseek (run_loop (fun _ => []) four_questions fresh)
   = Some (PStr (lit "sk-test")) /\
   length (current_context (run_loop (fun _ => []) four_questions fresh)) = 8 /\
   handle_user_query (fun _ => []) (tell "five") (lit "five")
     (run_loop (fun _ => []) four_questions fresh)
   = Return
       (complete_turn (fun _ => []) (tell "five") (lit "five")
          (run_loop (fun _ => []) four_questions fresh)
          (echo_api
             (lit "Context from previous knowledge:" ++ nl
              ++ lit "Assistant: ok..." ++ nl
              ++ lit "User: four..." ++ nl
              ++ lit "Assistant: ok..."
              ++ nl ++ nl ++ lit "Current query: five" ++ nl ++ nl
              ++ please)))) /\
  (deepseek btree_store = Some (PStr (lit "sk-test")) /\
   current_context btree_store = [] /\
   searchable (load_knowledge btree_store) = true /\
   handle_user_query (fun _ => []) (tell "b-tree") (lit "b-tree") btree_store
   = Return
       (complete_turn (fun _ => []) (tell "b-tree") (lit "b-tree") btree_store
          (echo_api
             (lit "Context from previous knowledge:" ++ nl
              ++ lit "database indexing: 1. Use a B-tree for range scans."
              ++ nl ++ nl ++ lit "Current query: b-tree" ++ nl ++ nl
              ++ please)))).
Proof.
  split.
  - split; [reflexivity|]. split; [reflexivity|].
    destruct (prompt_assembly (fun _ => []) (tell "five") (lit "five")
                (run_loop (fun _ => []) four_questions fresh)
                (PStr (lit "sk-test"))) as [H _];
      [reflexivity|].
    destruct (H [ lit "User: one..."; lit "Assistant: ok...";
                  lit "User: two..."; lit "Assistant: ok...";
                  lit "User: three..." ]
                (lit "Assistant: ok...") (lit "User: four...")
                (lit "Assistant: ok...")) as [Hs _];
      [vm_compute; reflexivity|].
    apply Hs. vm_compute. discriminate.
  - split; [reflexivity|]. split; [reflexivity|]. split; [reflexivity|].
    destruct (prompt_assembly (fun _ => []) (tell "b-tree") (lit "b-tree")
                btree_store (PStr (lit "sk-test"))) as (_ & _ & _ & H);
      [reflexivity|].
    destruct H as (_ & H & _); [reflexivity | reflexivity |].
    apply (H (lit "database indexing",
              instruction_entry stamp2
                [lit "1. Use a B-tree for range scans."] 0)).
    vm_compute. reflexivity.
Defined.

Lemma handled_failure_is_recorded_witness :
  deepseek fresh = Some (PStr (lit "sk-test")) /\
  gather_context (fun _ => []) (lit "hello") fresh = Return [] /\
  query_body (api hello_refused (build_prompt [] (lit "hello")))
  = Raise (RequestException refused) /\
  error_text (RequestException refused)
  = Some (lit "API Error: important: connection refused") /\
  exists a w',
    handle_user_query (fun _ => []) hello_refused (lit "hello") fresh
    = Return (a, w') /\
    current_context w'
    = [ lit "User: hello...";
        lit "Assistant: API Error: important: connection refused..." ] /\
    dict_get (lit "hello") (core_instructions_of (load_knowledge w'))
    = Some (instruction_entry stamp2
              [lit "API Error: important: connection refused"] 0).
Proof.
  split; [reflexivity|]. split; [reflexivity|].
  split; [reflexivity|]. split; [reflexivity|].
  destruct (handled_failure_is_recorded (fun _ => []) hello_refused
              (lit "hello") fresh (PStr (lit "sk-test")) []
              (lit "API Error: important: connection refused")
              (RequestException refused))
    as (_ & a & w' & Hq & _ & Hc & Hs); try reflexivity.
  exists a, w'. split; [exact Hq|]. split; [exact Hc|].
  destruct Hs as (_ & _ & _ & Hp); [reflexivity|].
  apply (Hp (lit "API Error: important: connection refused") []).
  vm_compute. reflexivity.
Defined.

(** C9 as stated fails: a body that parses but holds an empty list of
    choices is a malformed response, yet the client raises [IndexError]
    instead of returning a text, and the turn records nothing. *)
Lemma empty_choices_escapes_client :
  query_body empty_choices = Raise IndexError /\
  DeepSeekAPI_query empty_choices = Raise IndexError /\
  (forall text, DeepSeekAPI_query empty_choices <> Return (PStr text)) /\
  (forall py_repr,
      handle_user_query py_repr hello_empty_choices (lit "hello") fresh
      = Return (ApiError IndexError, fresh)).
Proof.
  split; [reflexivity|]. split; [reflexivity|].
  split; [intros text; discriminate|].
  intros py_repr. vm_compute. reflexivity.
Qed.

Lemma topic_of_short_injective_witness :
  length mutex_query <= 50 /\ topic_of mutex_query = mutex_query.
Proof.
  split; [vm_compute; lia|].
  destruct (topic_of_short_injective mutex_query mutex_query)
    as (_ & H & _).
  apply H. vm_compute; lia.
Defined.


Lemma context_never_exceeds_eight_witness :
  length (current_context fresh) <= 8 /\
  length (current_context (run (fun _ => []) five_questions stamp2 fresh))
  <= 8.
Proof.
  split; [vm_compute; lia|].
  apply (context_never_exceeds_eight (fun _ => []) five_questions stamp2
           fresh).
  vm_compute; lia.
Defined.

Lemma context_lines_are_labelled_witness :
  forallb context_line (current_context fresh) = true /\
  forallb context_line
    (current_context (run_loop (fun _ => []) four_questions fresh)) = true.
Proof.
  split; [reflexivity|].
  apply (context_lines_are_labelled (fun _ => []) four_questions fresh).
  reflexivity.
Defined.

Lemma history_is_a_dialogue_witness :
  (exists pairs, conversation_history fresh = dialogue pairs) /\
  exists pairs,
    conversation_history (run_loop (fun _ => []) four_questions fresh)
    = dialogue pairs /\ length pairs = 4.
Proof.
  split; [exists []; reflexivity|].
  destruct (history_is_a_dialogue (fun _ => []) four_questions stamp2 fresh)
    as [(pairs & Hp & Hl) _]; [exists []; reflexivity|].
  exists pairs. split; [exact Hp|].
  assert (H8 : length (conversation_history
                         (run_loop (fun _ => []) four_questions fresh)) = 8)
    by (vm_compute; reflexivity).
  lia.
Defined.

Lemma source_index_is_valid_witness :
  indexed (load_knowledge btree_store) = true /\
  indexed (load_knowledge
             (run (fun _ => []) four_questions stamp2 btree_store)) = true.
Proof.
  split; [vm_compute; reflexivity|].
  destruct (source_index_is_valid (fun _ => []) four_questions stamp2
              btree_store) as (_ & H & _);
    [vm_compute; reflexivity | exact H].
Defined.

Lemma stored_entry_is_found_witness :
  well_shaped (load_knowledge fresh) = true /\
  searchable (load_knowledge fresh) = true /\
  exists w' results,
    add_to_knowledge stamp1 stamp2 mutex_query (PStr mutex_response) fresh
    = Return w' /\
    search_knowledge (topic_of mutex_query) w' = Return results /\
    results <> [].
Proof.
  split; [reflexivity|]. split; [reflexivity|].
  destruct (stored_entry_is_found stamp1 stamp2 mutex_query mutex_response
              fresh)
    as (w' & results & Ha & Hs & Hin).
  - reflexivity.
  - reflexivity.
  - vm_compute. discriminate.
  - exists w', results. split; [exact Ha|]. split; [exact Hs|].
    intros ->. destruct Hin.
Defined.

Lemma narrower_query_finds_less_witness :
  searchable (load_knowledge btree_store) = true /\
  contains (lower (lit "tree")) (lower (lit "B-Tree")) = true /\
  exists found_short found_long,
    search_knowledge (lit "tree") btree_store = Return found_short /\
    search_knowledge (lit "B-Tree") btree_store = Return found_long /\
    length found_long <= length found_short.
Proof.
  split; [reflexivity|]. split; [reflexivity|].
  destruct (narrower_query_finds_less (lit "tree") (lit "B-Tree")
              btree_store)
    as (fs & fl & H1 & H2 & _ & Hlen); [reflexivity | reflexivity |].
  exists fs, fl. auto.
Defined.

Lemma exit_flushes_history_witness :
  well_shaped (load_knowledge fresh) = true /\
  length (conversations_of
            (load_knowledge (run (fun _ => []) four_questions stamp2 fresh)))
  = 5.
Proof.
  split; [reflexivity|].
  destruct (exit_flushes_history (fun _ => []) four_questions stamp2 fresh)
    as (_ & H); [reflexivity|].
  destruct H as (H & _); [vm_compute; discriminate|].
  rewrite H, length_app. reflexivity.
Defined.

Lemma saving_twice_stores_twice_witness :
  well_shaped
    (load_knowledge (run_loop (fun _ => []) four_questions fresh)) = true /\
  conversation_history (run_loop (fun _ => []) four_questions fresh) <> [] /\
  exists w1 w2,
    save_conversation stamp1 (run_loop (fun _ => []) four_questions fresh)
    = Return w1 /\
    save_conversation stamp2 w1 = Return w2 /\
    length (conversations_of (load_knowledge w2)) = 6.
Proof.
  split; [reflexivity|]. split; [vm_compute; discriminate|].
  destruct (saving_twice_stores_twice stamp1 stamp2
              (run_loop (fun _ => []) four_questions fresh))
    as (w1 & w2 & H1 & H2 & _ & Hc);
    [reflexivity | vm_compute; discriminate |].
  exists w1, w2. split; [exact H1|]. split; [exact H2|].
  rewrite Hc, length_app. reflexivity.
Defined.

Lemma setup_command_round_trip_witness :
  split_ws (lit "SetUp   sk-test") [] = [lit "SetUp"; lit "sk-test"] /\
  lower (lit "SetUp") = lit "setup" /\
  handle_slash_command (ask "") (lit "SetUp   sk-test") fresh
  = Return (setup_api_key (lit "sk-test") fresh, Continue).
Proof.
  split; [reflexivity|]. split; [reflexivity|].
  apply (setup_command_round_trip (ask "") (lit "SetUp   sk-test")
           (lit "SetUp") (lit "sk-test") [] fresh); reflexivity.
Defined.


Lemma client_exceptions_witness :
  DeepSeekAPI_query empty_choices = Raise IndexError /\
  (IndexError = IndexError \/ IndexError = TypeError).
Proof.
  split; [reflexivity|].
  destruct (client_exceptions empty_choices) as (_ & _ & H & _).
  apply (H (PDict [ (lit "choices", PList []) ])); reflexivity.
Defined.

Lemma slash_command_effects_witness :
  handle_slash_command (ask "") (lit "CLEAR now") btree_store
  = Return (set_context [] (set_history [] btree_store), Continue) /\
  knowledge_file (set_context [] (set_history [] btree_store))
  = knowledge_file btree_store.
Proof.
  split; [reflexivity|].
  destruct (slash_command_effects (ask "") (lit "CLEAR now") btree_store)
    as (_ & H).
  destruct (H (set_context [] (set_history [] btree_store)) Continue)
    as (first & args & Hs & Hk & _); [reflexivity|].
  apply Hk. vm_compute in Hs. injection Hs as <- _.
  vm_compute. discriminate.
Defined.

Lemma no_key_no_change_witness :
  deepseek (init None Absent Absent) = None /\
  startswith (lit "/") (strip (input (ask "one"))) = false /\
  turn (fun _ => []) (ask "one") (init None Absent Absent)
  = (init None Absent Absent, Continue).
Proof.
  split; [reflexivity|]. split; [reflexivity|].
  apply (no_key_no_change (fun _ => []) (ask "one")
           (init None Absent Absent)); reflexivity.
Defined.


Lemma next_context_block_witness :
  current_context (noted (lit "one") (lit "ok") fresh)
  = exchange [] (lit "one", lit "ok") /\
  gather_context (fun _ => []) (lit "two")
    (noted (lit "one") (lit "ok") fresh)
  = Return (lit "User: one..." ++ nl ++ lit "Assistant: ok...").
Proof.
  split; [reflexivity|].
  apply (next_context_block (fun _ => [])
           (noted (lit "one") (lit "ok") fresh) [] (lit "one") (lit "ok")
           (lit "two")).
  reflexivity.
Defined.

Lemma failed_store_hides_response_witness :
  deepseek (set_knowledge_file (Json (PList []))
              (noted (lit "one") (lit "ok") fresh))
  = Some (PStr (lit "sk-test")) /\
  handle_user_query (fun _ => []) (ask "two") (lit "two")
    (set_knowledge_file (Json (PList []))
       (noted (lit "one") (lit "ok") fresh))
  = Return (ApiError TypeError,
            noted (lit "two") (lit "ok")
              (set_knowledge_file (Json (PList []))
                 (noted (lit "one") (lit "ok") fresh))).
Proof.
  split; [reflexivity|].
  destruct (failed_store_hides_response (fun _ => []) (ask "two")
              (lit "two")
              (lit "User: one..." ++ nl ++ lit "Assistant: ok...")
              (lit "ok")
              (set_knowledge_file (Json (PList []))
                 (noted (lit "one") (lit "ok") fresh))
              (PStr (lit "sk-test")))
    as (_ & H & _); [reflexivity | reflexivity | reflexivity |].
  apply H. intros d. discriminate.
Defined.

Lemma unreadable_store_is_replaced_witness :
  knowledge_file (mkCli Unparseable Absent None [] []) = Unparseable /\
  exists w' d,
    add_to_knowledge stamp1 stamp2 mutex_query (PStr mutex_response)
      (mkCli Unparseable Absent None [] []) = Return w' /\
    knowledge_file w' = Json (PDict d) /\
    core_instructions_of (load_knowledge w')
    = [ (lit "What is a mutex?",
         instruction_entry stamp2
           [lit "1. A mutex is a lock."; lit "2. Only one holder at a time."]
           0) ].
Proof.
  split; [reflexivity|].
  destruct (unreadable_store_is_replaced stamp1 stamp2 mutex_query
              mutex_response (mkCli Unparseable Absent None [] []))
    as (_ & w' & d & Ha & Hk & _ & Hi); [now right|].
  exists w', d. split; [exact Ha|]. split; [exact Hk|].
  rewrite Hi. vm_compute. reflexivity.
Defined.
